(** * Luna Breast: the extraction, merge, scheduling and summary core of app.py

    A shallow embedding of [src/app.py] and the properties of its
    rule-based extractor, timeframe table, enrichment merge, follow-up
    planner and patient summary.

    Conventions of the embedding.
    - Python values that can sit in the extraction dict or come out of
      [json.loads] are the type [PyVal]: [None], booleans, integers,
      strings, lists and dicts.  JSON numbers with a fraction or an
      exponent (Python floats) are not represented.
    - A Python [dict] with string keys is a [gmap string PyVal].
    - A Python exception is a value [Raise e] of the type [result].
    - The report text is a [string] read one character per code point, for
      code points 0 to 255; the character classes of the regular
      expressions ([\s], [\d], [\b]) are those of Python's [re] on [str]
      patterns over that range.  The literals of the summary template are
      kept as the bytes of the source file and are only concatenated. *)

From Stdlib Require Import ZArith Lia Ascii String List Bool DecimalString.
From stdpp Require Import base gmap strings list fin_maps.

Set Warnings "-register-all".
Local Open Scope string_scope.
Local Open Scope list_scope.
Local Open Scope Z_scope.

(** ** Python values and exceptions *)

Inductive PyVal :=
| PNone
| PBool (b : bool)
| PInt (z : Z)
| PStr (s : string)
| PList (l : list PyVal)
| PDict (d : gmap string PyVal).

Inductive exn :=
  TypeError | ValueError | KeyError | OverflowError | FileNotFoundError.

Inductive result (A : Type) :=
| Ok (a : A)
| Raise (e : exn).
Arguments Ok {A} a.
Arguments Raise {A} e.

Definition bind {A B} (m : result A) (f : A -> result B) : result B :=
  match m with
  | Ok a => f a
  | Raise e => Raise e
  end.

Notation "'let*' x ':=' m 'in' k" := (bind m (fun x => k))
  (at level 10, x name, m at level 100, k at level 200).

(** [x is None] *)
Definition is_None (v : PyVal) : bool :=
  match v with PNone => true | _ => false end.

(** [d.get(k)]: the value under [k], [None] when the key is missing. *)
Definition dict_get (d : gmap string PyVal) (k : string) : PyVal :=
  default PNone (d !! k).

(** [d.get(k, dflt)] *)
Definition dict_get_default (d : gmap string PyVal) (k : string) (dflt : PyVal) : PyVal :=
  default dflt (d !! k).

(** ** Characters of the report text *)

Definition code (c : ascii) : Z := Z.of_N (N_of_ascii c).

Definition in_range (lo hi : Z) (c : ascii) : bool :=
  (lo <=? code c) && (code c <=? hi).

(** [\s] on a [str] pattern: the Unicode white space below 256. *)
Definition is_space (c : ascii) : bool :=
  in_range 9 13 c || in_range 28 32 c || (code c =? 133) || (code c =? 160).

(** [\d] on a [str] pattern: the decimal digits; below 256 these are 0-9. *)
Definition is_digit (c : ascii) : bool := in_range 48 57 c.

(** [\w] on a [str] pattern: alphanumeric characters and the underscore. *)
Definition is_word (c : ascii) : bool :=
  in_range 48 57 c || in_range 65 90 c || in_range 97 122 c || (code c =? 95)
  || (code c =? 170) || in_range 178 179 c || (code c =? 181)
  || in_range 185 186 c || in_range 188 190 c
  || in_range 192 214 c || in_range 216 246 c || in_range 248 255 c.

(** Lower case of the letters A-Z; the patterns of the program only hold
    letters of that range, so this decides [re.IGNORECASE] for them. *)
Definition lower (c : ascii) : ascii :=
  if in_range 65 90 c then ascii_of_N (N_of_ascii c + 32) else c.

Definition ci_eqb (x c : ascii) : bool :=
  if ascii_dec (lower x) (lower c) then true else false.

(** ** Regular expressions: the fragment of [re] the program uses

    [Chr] is a literal compared as under [re.IGNORECASE]; [Cls] a character
    class ([\s], [\d], [[-\s]], [[:\-]]); [Star] the greedy [*] on a class
    (the program only stars [\s]); [Opt] the greedy [?]; [WordB] is [\b];
    [Group] the capturing group (the program has at most one). *)

Inductive regex :=
| Eps
| Chr (c : ascii)
| Cls (p : ascii -> bool)
| Seq (r1 r2 : regex)
| Alt (r1 r2 : regex)
| Opt (r : regex)
| Star (p : ascii -> bool)
| WordB
| Group (r : regex).

(** The text of group 1, [None] while the group has not taken part.  A
    position in the text is given by the characters before it, last one
    first, and the characters from it on. *)
Definition capture : Type := option (list ascii).

Definition word_before (bef : list ascii) : bool :=
  match bef with c :: _ => is_word c | [] => false end.

Definition word_after (s : list ascii) : bool :=
  match s with c :: _ => is_word c | [] => false end.

(** The characters read between two positions of one scan. *)
Definition consumed (bef bef' : list ascii) : list ascii :=
  rev (firstn (length bef' - length bef) bef').

Section Matcher.
Context {R : Type}.

(** Greedy [p*]: take as many as possible, give back one at a time. *)
Fixpoint star_match (p : ascii -> bool) (bef s : list ascii)
    (k : list ascii -> list ascii -> option R) : option R :=
  match s with
  | c :: s' =>
      if p c then
        match star_match p (c :: bef) s' k with
        | Some x => Some x
        | None => k bef s
        end
      else k bef s
  | [] => k bef s
  end.

(** Backtracking match of [r] at a position, then the continuation [k]. *)
Fixpoint rmatch (r : regex) (bef s : list ascii) (cap : capture)
    (k : list ascii -> list ascii -> capture -> option R) : option R :=
  match r with
  | Eps => k bef s cap
  | Chr c =>
      match s with
      | x :: s' => if ci_eqb x c then k (x :: bef) s' cap else None
      | [] => None
      end
  | Cls p =>
      match s with
      | x :: s' => if p x then k (x :: bef) s' cap else None
      | [] => None
      end
  | Seq r1 r2 =>
      rmatch r1 bef s cap (fun bef' s' cap' => rmatch r2 bef' s' cap' k)
  | Alt r1 r2 =>
      match rmatch r1 bef s cap k with
      | Some x => Some x
      | None => rmatch r2 bef s cap k
      end
  | Opt r1 =>
      match rmatch r1 bef s cap k with
      | Some x => Some x
      | None => k bef s cap
      end
  | Star p => star_match p bef s (fun bef' s' => k bef' s' cap)
  | WordB =>
      if xorb (word_before bef) (word_after s) then k bef s cap else None
  | Group r1 =>
      rmatch r1 bef s cap
        (fun bef' s' _ => k bef' s' (Some (consumed bef bef')))
  end.
End Matcher.

(** [re.search]: the first position, from the left, where the pattern
    matches; the result is the text of group 1 (if the group took part). *)
Fixpoint search_from (r : regex) (bef s : list ascii) : option capture :=
  match rmatch r bef s None (fun _ _ cap => Some cap) with
  | Some cap => Some cap
  | None =>
      match s with
      | c :: s' => search_from r (c :: bef) s'
      | [] => None
      end
  end.

Definition re_search (r : regex) (text : string) : option capture :=
  search_from r [] (list_ascii_of_string text).

(** Truth value of a match object ([if re.search(...)]). *)
Definition found (m : option capture) : bool :=
  match m with Some _ => true | None => false end.

(** The regex of a literal word. *)
Fixpoint lit (w : string) : regex :=
  match w with
  | EmptyString => Eps
  | String c w' => Seq (Chr c) (lit w')
  end.

Fixpoint seq (rs : list regex) : regex :=
  match rs with
  | [] => Eps
  | r :: rs' => Seq r (seq rs')
  end.

(** ** RuleExtractor: [extract_birads], [extract_density], [extract_laterality] *)

Definition hyphen_or_space (c : ascii) : bool :=
  (if ascii_dec c "-" then true else false) || is_space c.

Definition colon_or_dash (c : ascii) : bool :=
  (if ascii_dec c ":" then true else false)
  || (if ascii_dec c "-" then true else false).

(** [r"BI[-\s]?RADS?\s*[:\-]?\s*(\d)"] *)
Definition birads_re : regex :=
  seq [lit "BI"; Opt (Cls hyphen_or_space); lit "RAD"; Opt (Chr "S");
       Star is_space; Opt (Cls colon_or_dash); Star is_space;
       Group (Cls is_digit)].

Definition digit_value (c : ascii) : Z := code c - 48.

(** [int(s)] for a string of decimal digits 0-9.  Python's [int] also
    reads signs, blanks and underscores; group 1 of [birads_re] never holds
    them, and every other string is a [ValueError] here. *)
Definition py_int (s : list ascii) : result Z :=
  match s with
  | [] => Raise ValueError
  | _ =>
      if forallb is_digit s
      then Ok (fold_left (fun acc c => 10 * acc + digit_value c) s 0)
      else Raise ValueError
  end.

(** [m = re.search(...); return int(m.group(1)) if m else None] *)
Definition extract_birads (text : string) : result PyVal :=
  match re_search birads_re text with
  | Some (Some g) => let* n := py_int g in Ok (PInt n)
  | Some None => Raise TypeError
  | None => Ok PNone
  end.

Definition density_patterns : list (regex * string) :=
  [ (Alt (lit "extremely dense") (seq [lit "density"; Star is_space; Chr "D"; WordB]), "D");
    (Alt (lit "heterogeneously dense") (seq [lit "density"; Star is_space; Chr "C"; WordB]), "C");
    (Alt (lit "scattered fibroglandular") (seq [lit "density"; Star is_space; Chr "B"; WordB]), "B");
    (Alt (lit "almost entirely fatty") (seq [lit "density"; Star is_space; Chr "A"; WordB]), "A") ].

(** [for pat, code in patterns: if re.search(pat, text): return code] and
    the value after the loop. *)
Fixpoint first_code (patterns : list (regex * string)) (text : string)
    (otherwise : string) : string :=
  match patterns with
  | [] => otherwise
  | (pat, code) :: rest =>
      if found (re_search pat text) then code else first_code rest text otherwise
  end.

Definition extract_density (text : string) : string :=
  first_code density_patterns text "unknown".

Definition extract_laterality (text : string) : string :=
  if found (re_search (Alt (lit "bilateral") (lit "both breasts")) text)
  then "bilateral"
  else if found (re_search (seq [WordB; lit "left breast"; WordB]) text)
  then "left"
  else if found (re_search (seq [WordB; lit "right breast"; WordB]) text)
  then "right"
  else "unknown".

(** ** TimeframePolicy: [timeframe_from_birads] *)

(** [{0:7, 1:365, 2:365, 3:180, 4:7, 5:7, 6:0}] *)
Definition timeframe_table : gmap Z Z :=
  <[0:=7]> (<[1:=365]> (<[2:=365]> (<[3:=180]> (<[4:=7]> (<[5:=7]> (<[6:=0]> ∅)))))).

Definition table_get (z : Z) : PyVal :=
  match timeframe_table !! z with
  | Some days => PInt days
  | None => PNone
  end.

(** [if b is None: return None] and then [table.get(b)].  A bool key is
    the integer 0 or 1; a string is hashable and equal to no key; a list
    or a dict is unhashable and [get] raises [TypeError]. *)
Definition timeframe_from_birads (b : PyVal) : result PyVal :=
  match b with
  | PNone => Ok PNone
  | PInt z => Ok (table_get z)
  | PBool t => Ok (table_get (if t then 1 else 0))
  | PStr _ => Ok PNone
  | PList _ | PDict _ => Raise TypeError
  end.

(** ** The extraction record and the enrichment merge *)

Definition K_birads : string := "birads".
Definition K_density : string := "density".
Definition K_laterality : string := "laterality".
Definition K_findings : string := "findings".
Definition K_recommendation : string := "recommendation".
Definition K_timeframe : string := "recommended_timeframe_days".

(** The dict literal of the base extraction (app.py, lines 161-172). *)
Definition make_extraction (birads density laterality timeframe : PyVal)
    : gmap string PyVal :=
  <[K_birads := birads]>
  (<[K_density := density]>
  (<[K_laterality := laterality]>
  (<[K_findings := PStr ""]>
  (<[K_recommendation := PStr ""]>
  (<[K_timeframe := timeframe]> ∅))))).

Definition base_extraction (raw_text : string) : result (gmap string PyVal) :=
  let* birads := extract_birads raw_text in
  let density := extract_density raw_text in
  let laterality := extract_laterality raw_text in
  let* timeframe := timeframe_from_birads birads in
  Ok (make_extraction birads (PStr density) (PStr laterality) timeframe).

Fixpoint is_infix (k s : string) : bool :=
  String.prefix k s
  || match s with
     | String _ s' => is_infix k s'
     | EmptyString => false
     end.

(** [v == k] for a string [k] *)
Definition eq_str (k : string) (v : PyVal) : bool :=
  match v with
  | PStr s => if string_dec s k then true else false
  | _ => false
  end.

(** [k in llm]: key of a dict, element of a list, substring of a string;
    [None], a bool and an int are not iterable. *)
Definition py_contains (k : string) (llm : PyVal) : result bool :=
  match llm with
  | PDict d => Ok (match d !! k with Some _ => true | None => false end)
  | PList l => Ok (existsb (eq_str k) l)
  | PStr s => Ok (is_infix k s)
  | PNone | PBool _ | PInt _ => Raise TypeError
  end.

(** [llm[k]] for a string [k] *)
Definition py_getitem (llm : PyVal) (k : string) : result PyVal :=
  match llm with
  | PDict d => match d !! k with Some v => Ok v | None => Raise KeyError end
  | _ => Raise TypeError
  end.

(** [v in [None, ""]] *)
Definition none_or_empty (v : PyVal) : bool :=
  match v with
  | PNone => true
  | PStr EmptyString => true
  | _ => false
  end.

(** One round of the loop body:
    [if k in llm and llm[k] not in [None, ""]: extraction[k] = llm[k]] *)
Definition override_key (llm : PyVal) (extraction : gmap string PyVal)
    (k : string) : result (gmap string PyVal) :=
  let* present := py_contains k llm in
  if present then
    let* v := py_getitem llm k in
    if none_or_empty v then Ok extraction else Ok (<[k := v]> extraction)
  else Ok extraction.

Fixpoint override_loop (llm : PyVal) (keys : list string)
    (extraction : gmap string PyVal) : result (gmap string PyVal) :=
  match keys with
  | [] => Ok extraction
  | k :: keys' =>
      let* e := override_key llm extraction k in
      override_loop llm keys' e
  end.

(** [extraction.keys()] *)
Definition dict_keys (d : gmap string PyVal) : list string :=
  (map_to_list d).*1.

(** The body of [if use_llm:] once [llm] is known (app.py, lines 177-181). *)
Definition merge (extraction : gmap string PyVal) (llm : PyVal)
    : result (gmap string PyVal) :=
  let* e := override_loop llm (dict_keys extraction) extraction in
  if is_None (dict_get e K_timeframe) then
    let* tf := timeframe_from_birads (dict_get e K_birads) in
    Ok (<[K_timeframe := tf]> e)
  else Ok e.

(** ** EnrichmentClient: [llm_extract]

    What the function reads from outside: the environment variable
    [OPENAI_API_KEY], the secrets store of Streamlit, and what the body of
    its [try] does for a key and a report: it raises (import, client,
    request or [json.loads]), or [json.loads] returns a value. *)

Inductive Reply :=
| ServiceError
| NotJson
| Json (v : PyVal).

(** [st.secrets]: without a secrets file every access raises; with one,
    [get] gives the value under [OPENAI_API_KEY] or [None]. *)
Inductive Secrets :=
| NoSecretsFile
| SecretsFile (key : option string).

Record World := {
  getenv_key : option string;
  secrets : Secrets;
  chat : string -> string -> Reply
}.

(** [st.secrets.get("OPENAI_API_KEY", None)] *)
Definition secrets_get (s : Secrets) : result (option string) :=
  match s with
  | NoSecretsFile => Raise FileNotFoundError
  | SecretsFile key => Ok key
  end.

(** [os.getenv(..) or st.secrets.get(.., None)] (app.py, line 46, before
    the [try]): the secrets store is only read when the environment gives
    nothing or the empty string.  The result [None] stands for a value that
    [if not api_key] takes as false. *)
Definition api_key (w : World) : result (option string) :=
  match getenv_key w with
  | Some (String c k) => Ok (Some (String c k))
  | _ =>
      let* v := secrets_get (secrets w) in
      match v with
      | Some (String c k) => Ok (Some (String c k))
      | _ => Ok None
      end
  end.

Definition llm_extract (w : World) (report_text : string) : result PyVal :=
  let* key := api_key w in
  match key with
  | None => Ok (PDict ∅)
  | Some key =>
      match chat w key report_text with
      | Json v => Ok v
      | ServiceError | NotJson => Ok (PDict ∅)
      end
  end.

(** The schema the prompt asks for (app.py, lines 52-63). *)
Definition is_integer (v : PyVal) : bool :=
  match v with PInt _ => true | _ => false end.

Definition is_string (v : PyVal) : bool :=
  match v with PStr _ => true | _ => false end.

Definition schema_properties : list (string * (PyVal -> bool)) :=
  [ (K_birads, is_integer); (K_density, is_string); (K_laterality, is_string);
    (K_findings, is_string); (K_recommendation, is_string);
    (K_timeframe, is_integer) ].

Definition matches_schema (v : PyVal) : bool :=
  match v with
  | PDict d =>
      forallb (fun '(k, ty) =>
                 match d !! k with Some x => ty x | None => false end)
              schema_properties
  | _ => false
  end.

(** ** The pipeline of one run: base extraction, then the optional merge *)

Definition pipeline (w : World) (use_llm : bool) (raw_text : string)
    : result (gmap string PyVal) :=
  let* extraction := base_extraction raw_text in
  if use_llm then
    let* llm := llm_extract w raw_text in
    merge extraction llm
  else Ok extraction.

(** ** FollowUpScheduler: the follow-up planner block

    [datetime.date] as the library has it: a year, a month and a day, and
    the proleptic Gregorian ordinal (day 1 is 0001-01-01) that the
    library's date arithmetic goes through. *)

Record date := mkdate { year : Z; month : Z; day : Z }.

Definition is_leap (y : Z) : bool :=
  (y mod 4 =? 0) && (negb (y mod 100 =? 0) || (y mod 400 =? 0)).

Definition days_in_month_table (m : Z) : Z :=
  match m with
  | 1 => 31 | 2 => 28 | 3 => 31 | 4 => 30 | 5 => 31 | 6 => 30
  | 7 => 31 | 8 => 31 | 9 => 30 | 10 => 31 | 11 => 30 | 12 => 31
  | _ => -1
  end.

Definition days_before_month_table (m : Z) : Z :=
  match m with
  | 1 => 0 | 2 => 31 | 3 => 59 | 4 => 90 | 5 => 120 | 6 => 151
  | 7 => 181 | 8 => 212 | 9 => 243 | 10 => 273 | 11 => 304 | 12 => 334
  | _ => -1
  end.

Definition days_before_year (y : Z) : Z :=
  let y1 := y - 1 in y1 * 365 + y1 / 4 - y1 / 100 + y1 / 400.

Definition days_in_month (y m : Z) : Z :=
  if (m =? 2) && is_leap y then 29 else days_in_month_table m.

Definition days_before_month (y m : Z) : Z :=
  days_before_month_table m + (if (2 <? m) && is_leap y then 1 else 0).

Definition ymd2ord (y m d : Z) : Z :=
  days_before_year y + days_before_month y m + d.

Definition toordinal (t : date) : Z := ymd2ord (year t) (month t) (day t).

Definition DI400Y : Z := 146097.
Definition DI100Y : Z := 36524.
Definition DI4Y : Z := 1461.
Definition MAXORDINAL : Z := 3652059.

(** [date.fromordinal], the library's [_ord2ymd]. *)
Definition fromordinal (n : Z) : date :=
  let n := n - 1 in
  let n400 := n / DI400Y in
  let n := n mod DI400Y in
  let y := n400 * 400 + 1 in
  let n100 := n / DI100Y in
  let n := n mod DI100Y in
  let n4 := n / DI4Y in
  let n := n mod DI4Y in
  let n1 := n / 365 in
  let n := n mod 365 in
  let y := y + n100 * 100 + n4 * 4 + n1 in
  if (n1 =? 4) || (n100 =? 4) then mkdate (y - 1) 12 31
  else
    let leapyear := (n1 =? 3) && (negb (n4 =? 24) || (n100 =? 3)) in
    let m := Z.shiftr (n + 50) 5 in
    let preceding :=
      days_before_month_table m + (if (2 <? m) && leapyear then 1 else 0) in
    if n <? preceding then
      let m' := m - 1 in
      let preceding' :=
        preceding
        - (days_in_month_table m' + (if (m' =? 2) && leapyear then 1 else 0)) in
      mkdate y m' (n - preceding' + 1)
    else mkdate y m (n - preceding + 1).

Definition valid_date (t : date) : Prop :=
  1 <= year t <= 9999 /\ 1 <= month t <= 12
  /\ 1 <= day t <= days_in_month (year t) (month t).

(** [datetime.timedelta(days=n)]: the number of days, within the
    library's limit. *)
Definition timedelta_days (n : Z) : result Z :=
  if Z.abs n <=? 999999999 then Ok n else Raise OverflowError.

(** [today + delta] *)
Definition date_add (today : date) (days : Z) : result date :=
  let o := toordinal today + days in
  if (0 <? o) && (o <=? MAXORDINAL) then Ok (fromordinal o)
  else Raise OverflowError.

(** [tf >= 0] for a value that is not [None] *)
Definition py_ge_zero (tf : PyVal) : result bool :=
  match tf with
  | PInt z => Ok (0 <=? z)
  | PBool _ => Ok true
  | PNone | PStr _ | PList _ | PDict _ => Raise TypeError
  end.

(** [int(tf)] *)
Definition py_int_of (tf : PyVal) : result Z :=
  match tf with
  | PInt z => Ok z
  | PBool b => Ok (if b then 1 else 0)
  | PStr s => py_int (list_ascii_of_string s)
  | PNone | PList _ | PDict _ => Raise TypeError
  end.

(** The target date of the planner, [None] when the block is skipped
    (app.py, lines 197-199). *)
Definition follow_up (extraction : gmap string PyVal) (today : date)
    : result (option date) :=
  let tf := dict_get extraction K_timeframe in
  if is_None tf then Ok None
  else
    let* nonneg := py_ge_zero tf in
    if nonneg then
      let* n := py_int_of tf in
      let* delta := timedelta_days n in
      let* due := date_add today delta in
      Ok (Some due)
    else Ok None.

(** The scheduler on a timeframe alone. *)
Definition schedule (timeframe : PyVal) (today : date) : result (option date) :=
  follow_up (<[K_timeframe := timeframe]> ∅) today.

(** ** SummaryRenderer: [patient_summary] *)

Definition nl : string := String (ascii_of_N 10) EmptyString.

(** Truth value of a Python value ([x or y], [if x]). *)
Definition py_truthy (v : PyVal) : bool :=
  match v with
  | PNone => false
  | PBool b => b
  | PInt z => negb (z =? 0)
  | PStr s => match s with EmptyString => false | _ => true end
  | PList l => match l with [] => false | _ => true end
  | PDict d => match map_to_list d with [] => false | _ => true end
  end.

(** [x or y] *)
Definition py_or (x y : PyVal) : PyVal := if py_truthy x then x else y.

Definition upper (c : ascii) : ascii :=
  if in_range 97 122 c then ascii_of_N (N_of_ascii c - 32) else c.

(** [s.upper()] on the letters a-z.  Python also maps letters beyond
    that range; no such string has the upper case [C] or [D], the only
    values the result is compared with. *)
Fixpoint str_upper (s : string) : string :=
  match s with
  | EmptyString => EmptyString
  | String c s' => String (upper c) (str_upper s')
  end.

Definition str_in (s : string) (l : list string) : bool :=
  existsb (fun x => if string_dec s x then true else false) l.

Definition dense_sentence : string :=
  nl +:+ "• Because your breast tissue is dense, your clinician may discuss if any additional screening is right for you.".

Definition fallback_findings : string := "not specified in the report".
Definition fallback_recommendation : string := "follow your care team's advice".

Section Summary.
(** [repr] of a list or a dict, as [str] and an f-string render them. *)
Variable py_repr : PyVal -> string.

(** [str(v)], the text an f-string puts for [{v}] *)
Definition py_str (v : PyVal) : string :=
  match v with
  | PNone => "None"
  | PBool b => if b then "True" else "False"
  | PInt z => NilEmpty.string_of_int (Z.to_int z)
  | PStr s => s
  | PList _ | PDict _ => py_repr v
  end.

Definition summary_findings (extraction : gmap string PyVal) : PyVal :=
  py_or (dict_get extraction K_findings) (PStr fallback_findings).

Definition summary_recommendation (extraction : gmap string PyVal) : PyVal :=
  py_or (dict_get extraction K_recommendation) (PStr fallback_recommendation).

Definition summary_when (extraction : gmap string PyVal) : string :=
  let tf := dict_get extraction K_timeframe in
  if is_None tf then "as recommended"
  else "in about " +:+ py_str tf +:+ " days".

Definition dense_line (extraction : gmap string PyVal) : string :=
  let d := dict_get_default extraction K_density (PStr "unknown") in
  if str_in (str_upper (py_str d)) ["C"; "D"] then dense_sentence
  else "".

Definition summary_head (extraction : gmap string PyVal) : string :=
  let b := dict_get_default extraction K_birads (PStr "not specified") in
  "### What this means" +:+ nl
  +:+ "• BI-RADS: **" +:+ py_str b +:+ "**" +:+ nl.

Definition summary_fields (extraction : gmap string PyVal) : string :=
  let d := dict_get_default extraction K_density (PStr "unknown") in
  let lat := dict_get_default extraction K_laterality (PStr "unknown") in
  "• Breast density: **" +:+ py_str d +:+ "**" +:+ nl
  +:+ "• Side: **" +:+ py_str lat +:+ "**" +:+ nl
  +:+ "• Key findings: " +:+ py_str (summary_findings extraction) +:+ nl +:+ nl
  +:+ "### Your next steps" +:+ nl
  +:+ "• Recommended action: "
  +:+ py_str (summary_recommendation extraction) +:+ " "
  +:+ summary_when extraction +:+ "." +:+ nl.

Definition summary_tail : string :=
  nl
  +:+ "### Questions to ask your clinician" +:+ nl
  +:+ "• Do I need any additional imaging?" +:+ nl
  +:+ "• When should I schedule it?" +:+ nl
  +:+ "• Is there anything else I should know?" +:+ nl +:+ nl
  +:+ "_This summary is educational and does not replace your clinician’s advice._".

(** The text [base] of [patient_summary]; [language] is not read. *)
Definition patient_summary (extraction : gmap string PyVal)
    (language : string) : string :=
  summary_head extraction
  +:+ summary_fields extraction
  +:+ dense_line extraction
  +:+ summary_tail.
End Summary.

(** ** What a pattern matches, stated without the matcher

    [matches r bef s cap bef' s' cap'] : from the position [(bef, s)] the
    pattern [r] can read up to the position [(bef', s')], and group 1 goes
    from [cap] to [cap']. *)

Inductive matches :
  regex -> list ascii -> list ascii -> capture ->
  list ascii -> list ascii -> capture -> Prop :=
| M_eps bef s cap :
    matches Eps bef s cap bef s cap
| M_chr c x bef s cap :
    ci_eqb x c = true ->
    matches (Chr c) bef (x :: s) cap (x :: bef) s cap
| M_cls p x bef s cap :
    p x = true ->
    matches (Cls p) bef (x :: s) cap (x :: bef) s cap
| M_seq r1 r2 bef s cap bef1 s1 cap1 bef2 s2 cap2 :
    matches r1 bef s cap bef1 s1 cap1 ->
    matches r2 bef1 s1 cap1 bef2 s2 cap2 ->
    matches (Seq r1 r2) bef s cap bef2 s2 cap2
| M_alt_l r1 r2 bef s cap bef' s' cap' :
    matches r1 bef s cap bef' s' cap' ->
    matches (Alt r1 r2) bef s cap bef' s' cap'
| M_alt_r r1 r2 bef s cap bef' s' cap' :
    matches r2 bef s cap bef' s' cap' ->
    matches (Alt r1 r2) bef s cap bef' s' cap'
| M_opt_take r bef s cap bef' s' cap' :
    matches r bef s cap bef' s' cap' ->
    matches (Opt r) bef s cap bef' s' cap'
| M_opt_skip r bef s cap :
    matches (Opt r) bef s cap bef s cap
| M_star_stop p bef s cap :
    matches (Star p) bef s cap bef s cap
| M_star_step p x bef s cap bef' s' cap' :
    p x = true ->
    matches (Star p) (x :: bef) s cap bef' s' cap' ->
    matches (Star p) bef (x :: s) cap bef' s' cap'
| M_wordb bef s cap :
    xorb (word_before bef) (word_after s) = true ->
    matches WordB bef s cap bef s cap
| M_group r bef s cap bef' s' cap' :
    matches r bef s cap bef' s' cap' ->
    matches (Group r) bef s cap bef' s' (Some (consumed bef bef')).

(** The pattern matches with its first character at the head of [suf],
    [pre] being the text before it. *)
Definition matches_at (r : regex) (pre suf : list ascii) (cap : capture) : Prop :=
  exists bef' s', matches r (rev pre) suf None bef' s' cap.

(** The words a pattern without [\b] and without a group can read. *)
Fixpoint lang (r : regex) (l : list ascii) : Prop :=
  match r with
  | Eps => l = []
  | Chr c => exists x, l = [x] /\ ci_eqb x c = true
  | Cls p => exists x, l = [x] /\ p x = true
  | Seq r1 r2 => exists l1 l2, l = l1 ++ l2 /\ lang r1 l1 /\ lang r2 l2
  | Alt r1 r2 => lang r1 l \/ lang r2 l
  | Opt r1 => l = [] \/ lang r1 l
  | Star p => Forall (fun x => p x = true) l
  | WordB => False
  | Group _ => False
  end.

Fixpoint plain (r : regex) : bool :=
  match r with
  | Eps | Chr _ | Cls _ | Star _ => true
  | Seq r1 r2 | Alt r1 r2 => plain r1 && plain r2
  | Opt r1 => plain r1
  | WordB | Group _ => false
  end.

(** ** Notions of the specification about the report text *)

(** [l] is the word [w], letter by letter, in any case. *)
Definition ci_word (w : string) (l : list ascii) : Prop :=
  Forall2 (fun x c => ci_eqb x c = true) l (list_ascii_of_string w).

(** [l] is empty or one character of the class [p]. *)
Definition at_most_one (p : ascii -> bool) (l : list ascii) : Prop :=
  l = [] \/ exists c, l = [c] /\ p c = true.

Definition blanks (l : list ascii) : Prop :=
  Forall (fun x => is_space x = true) l.

(** A BI-RADS mention with the digit [d] starts at the head of [s]:
    "BI", an optional hyphen or blank, "RAD", an optional "S", blanks, an
    optional colon or dash, blanks, and the digit. *)
Definition birads_mention (s : list ascii) (d : ascii) : Prop :=
  exists bi sep rad sfx ws1 punct ws2 rest,
    s = bi ++ sep ++ rad ++ sfx ++ ws1 ++ punct ++ ws2 ++ d :: rest
    /\ ci_word "BI" bi /\ at_most_one hyphen_or_space sep
    /\ ci_word "RAD" rad /\ at_most_one (fun c => ci_eqb c "S") sfx
    /\ blanks ws1 /\ at_most_one colon_or_dash punct /\ blanks ws2
    /\ is_digit d = true.

(** No mention starts before the position [n] of [text]. *)
Definition no_mention_before (text : list ascii) (n : nat) : Prop :=
  forall pre suf d,
    text = pre ++ suf -> (length pre < n)%nat -> ~ birads_mention suf d.

(** The first mention of [text] has the digit [d]. *)
Definition first_mention (text : list ascii) (d : ascii) : Prop :=
  exists pre suf,
    text = pre ++ suf /\ birads_mention suf d
    /\ no_mention_before text (length pre).

Definition no_mention (text : list ascii) : Prop :=
  forall pre suf d, text = pre ++ suf -> ~ birads_mention suf d.

(** [text] holds the phrase [w], in any case. *)
Definition contains_ci (w : string) (text : string) : Prop :=
  exists pre mid post,
    list_ascii_of_string text = pre ++ mid ++ post /\ ci_word w mid.

(** "BI-RADS 3" with a hyphen, a blank or nothing between BI and RADS. *)
Definition birads3_variant (l : list ascii) : Prop :=
  ci_word "BI-RADS 3" l \/ ci_word "BI RADS 3" l \/ ci_word "BIRADS 3" l.

(** ** The input stage: [pdf_to_text] and the guards before the extraction

    What [PdfReader] and [page.extract_text()] do with the uploaded bytes
    is taken as given: the reader raises, or it yields pages, and each page
    raises, returns [None], or returns a string. *)

Inductive PageText :=
| PageRaises
| PageNone
| PageStr (t : string).

Inductive PdfFile :=
| PdfUnreadable
| PdfPages (pages : list PageText).

(** The loop [for p in reader.pages: t = p.extract_text() or ""], [None]
    when a page raises. *)
Fixpoint page_texts (pages : list PageText) : option (list string) :=
  match pages with
  | [] => Some []
  | PageRaises :: _ => None
  | PageNone :: rest => option_map (cons "") (page_texts rest)
  | PageStr t :: rest => option_map (cons t) (page_texts rest)
  end.

(** [sep.join(parts)] *)
Fixpoint str_join (sep : string) (parts : list string) : string :=
  match parts with
  | [] => ""
  | [t] => t
  | t :: rest => t +:+ sep +:+ str_join sep rest
  end.

(** [pdf_to_text]: the texts of the pages joined by new lines, and [""]
    on any exception. *)
Definition pdf_to_text (file_bytes : PdfFile) : string :=
  match file_bytes with
  | PdfUnreadable => ""
  | PdfPages pages =>
      match page_texts pages with
      | Some texts => str_join nl texts
      | None => ""
      end
  end.

Fixpoint lstrip (l : list ascii) : list ascii :=
  match l with
  | c :: l' => if is_space c then lstrip l' else l
  | [] => []
  end.

Definition rstrip (l : list ascii) : list ascii := rev (lstrip (rev l)).

(** [s.strip()] *)
Definition py_strip (s : string) : string :=
  string_of_list_ascii (rstrip (lstrip (list_ascii_of_string s))).

Definition str_nonempty (s : string) : bool :=
  match s with EmptyString => false | _ => true end.

(** [a or b] for two strings *)
Definition py_or_str (a b : string) : string :=
  if str_nonempty a then a else b.

(** The uploaded file: its name and what reading it as a PDF gives. *)
Record Upload := { upload_name : string; upload_pdf : PdfFile }.

(** How a click on the button starts: one of the two [st.stop()] or the
    text that goes to the extraction (app.py, lines 148-158). *)
Inductive Start :=
| StopNoInput
| StopNoText
| Run (raw_text : string).

Definition start (file : option Upload) (text_input : string) : Start :=
  if negb (match file with Some _ => true | None => false end)
     && negb (str_nonempty (py_strip text_input))
  then StopNoInput
  else
    let raw_text := py_strip text_input in
    let raw_text :=
      match file with
      | Some f =>
          if str_nonempty (upload_name f)
          then py_or_str (pdf_to_text (upload_pdf f)) raw_text
          else raw_text
      | None => raw_text
      end in
    if negb (str_nonempty (py_strip raw_text)) then StopNoText
    else Run raw_text.

(** ** [calendar_link]

    [urllib.parse.urlencode] with its default [quote_plus], on the UTF-8
    bytes of the strings. *)

(** The characters [quote] never escapes: letters, digits and [_.-~]. *)
Definition always_safe (c : ascii) : bool :=
  in_range 65 90 c || in_range 97 122 c || in_range 48 57 c
  || (code c =? 95) || (code c =? 46) || (code c =? 45) || (code c =? 126).

Definition hex_digit (n : N) : ascii :=
  if (n <? 10)%N then ascii_of_N (48 + n) else ascii_of_N (55 + n).

(** ["%{:02X}".format(byte)] *)
Definition percent_hex (c : ascii) : string :=
  String "%" (String (hex_digit (N_of_ascii c / 16))
             (String (hex_digit (N_of_ascii c mod 16)) EmptyString)).

(** [quote(s, safe)] *)
Fixpoint quote (safe : ascii -> bool) (s : string) : string :=
  match s with
  | EmptyString => EmptyString
  | String c s' =>
      (if always_safe c || safe c then String c EmptyString else percent_hex c)
      +:+ quote safe s'
  end.

Definition is_blank_char (c : ascii) : bool :=
  if ascii_dec c " " then true else false.

Fixpoint has_blank (s : string) : bool :=
  match s with
  | EmptyString => false
  | String c s' => is_blank_char c || has_blank s'
  end.

(** [s.replace(' ', '+')] *)
Fixpoint blanks_to_plus (s : string) : string :=
  match s with
  | EmptyString => EmptyString
  | String c s' => String (if is_blank_char c then "+"%char else c) (blanks_to_plus s')
  end.

(** [quote_plus(s)] with the empty [safe] of [urlencode] *)
Definition quote_plus (s : string) : string :=
  if has_blank s then blanks_to_plus (quote is_blank_char s)
  else quote (fun _ => false) s.

(** [urlencode(params)] for string keys and values *)
Definition urlencode (params : list (string * string)) : string :=
  str_join "&" (map (fun '(k, v) => quote_plus k +:+ "=" +:+ quote_plus v) params).

Definition calendar_base : string := "https://calendar.google.com/calendar/render?".

Section Calendar.
(** [start_date.strftime("%Y%m%d")] *)
Variable strftime_Ymd : date -> string.

Definition calendar_link (title : string) (start_date : date) (details : string)
    : string :=
  let start := strftime_Ymd start_date in
  let end_ := strftime_Ymd start_date in
  let params :=
    [ ("action", "TEMPLATE"); ("text", title);
      ("dates", start +:+ "/" +:+ end_); ("details", details) ] in
  calendar_base +:+ urlencode params.
End Calendar.

(** ** Notions of the further properties *)

(** The text has "density", blanks, and the letter [c] (in any case) with no
    word character after it. *)
Definition density_token (c : ascii) (text : list ascii) : Prop :=
  exists pre dens ws x post,
    text = pre ++ dens ++ ws ++ x :: post
    /\ ci_word "density" dens /\ blanks ws /\ ci_eqb x c = true
    /\ word_after post = false.

(** What makes a density group match: its phrase, or its letter after
    "density". *)
Definition density_evidence (phrase : string) (c : ascii) (text : string) : Prop :=
  contains_ci phrase text \/ density_token c (list_ascii_of_string text).

(** The text has the phrase [w] (in any case) with no word character
    right before it and none right after it. *)
Definition whole_phrase (w : string) (text : string) : Prop :=
  exists pre mid post,
    list_ascii_of_string text = pre ++ mid ++ post /\ ci_word w mid
    /\ word_before (rev pre) = false /\ word_after post = false.

(** Every character of [s] satisfies [p]. *)
Fixpoint str_forall (p : ascii -> bool) (s : string) : bool :=
  match s with
  | EmptyString => true
  | String c s' => p c && str_forall p s'
  end.

Fixpoint str_count (c : ascii) (s : string) : nat :=
  match s with
  | EmptyString => 0%nat
  | String x s' => ((if ascii_dec x c then 1 else 0) + str_count c s')%nat
  end.

(** The characters of an encoded query: the safe ones and [%], [+], [&], [=]. *)
Definition query_char (c : ascii) : bool :=
  always_safe c || (code c =? 37) || (code c =? 43) || (code c =? 38)
  || (code c =? 61).

(** The string is white space only. *)
Definition all_blank (s : string) : Prop :=
  Forall (fun c => is_space c = true) (list_ascii_of_string s).

(** Pages without text. *)
Definition textless (p : PageText) : Prop := p = PageNone \/ p = PageStr "".

(** The characters of an encoded key or value: the safe ones, [%] and [+]. *)
Definition value_char (c : ascii) : bool :=
  always_safe c || (code c =? 37) || (code c =? 43).

(** One character as [quote_plus] writes it. *)
Definition quote_plus_char (c : ascii) : string :=
  if always_safe c then String c EmptyString
  else if is_blank_char c then "+"
  else percent_hex c.

Fixpoint quote_plus_chars (s : string) : string :=
  match s with
  | EmptyString => EmptyString
  | String c s' => quote_plus_char c +:+ quote_plus_chars s'
  end.

Definition unhex (c : ascii) : N :=
  if in_range 48 57 c then N_of_ascii c - 48 else N_of_ascii c - 55.

(** The reading back of an encoded value: [+] is a blank and [%XY] the
    byte with the hexadecimal digits [X] and [Y]. *)
Fixpoint unquote_plus (s : string) : string :=
  match s with
  | EmptyString => EmptyString
  | String c r =>
      if ascii_dec c "+" then String " " (unquote_plus r)
      else if ascii_dec c "%" then
        match r with
        | String x (String y r') =>
            String (ascii_of_N (16 * unhex x + unhex y)) (unquote_plus r')
        | _ => String c (unquote_plus r)
        end
      else String c (unquote_plus r)
  end.

(** ** Auxiliary definitions of the proofs *)

(** What the loop leaves under one key: the enrichment's value when it is
    there and is neither [None] nor [""], the old value otherwise. *)
Definition overridden (d : gmap string PyVal) (k : string) (old : option PyVal)
    : option PyVal :=
  match d !! k with
  | Some v => if none_or_empty v then old else Some v
  | None => old
  end.

(** Two worlds: one without a credential (the secrets store is there and
    has no key), and one whose service answers with a JSON object that is
    off the schema. *)
Definition no_credentials : World :=
  {| getenv_key := None; secrets := SecretsFile None;
     chat := fun _ _ => ServiceError |}.

Definition reply_off_schema : World :=
  {| getenv_key := Some "sk-test"; secrets := SecretsFile None;
     chat := fun _ _ => Json (PDict {[ K_birads := PStr "four" ]}) |}.

(** A world whose service answers with a JSON object that has the integer
    0 for the findings and a lower-case density. *)
Definition reply_zero_findings : World :=
  {| getenv_key := Some "sk-test"; secrets := SecretsFile None;
     chat := fun _ _ =>
       Json (PDict {[ K_findings := PInt 0; K_density := PStr "c" ]}) |}.

(** A base record without a BI-RADS, an enrichment that brings one, tries
    to blank the density and the laterality and has a key of its own, and
    the record their merge gives. *)
Definition example_base : gmap string PyVal :=
  make_extraction PNone (PStr "B") (PStr "left") PNone.

Definition example_reply : gmap string PyVal :=
  {[ K_birads := PInt 5; K_density := PStr ""; K_laterality := PNone;
     "impression" := PStr "stable" ]}.

Definition example_merged : gmap string PyVal :=
  make_extraction (PInt 5) (PStr "B") (PStr "left") (PInt 7).

(** The month and the day of [fromordinal] for the day [n] of a year,
    counted from 0. *)
Definition month_day (n : Z) (leapyear : bool) : Z * Z :=
  let m := Z.shiftr (n + 50) 5 in
  let preceding :=
    days_before_month_table m + (if (2 <? m) && leapyear then 1 else 0) in
  if n <? preceding then
    let m' := m - 1 in
    let preceding' :=
      preceding
      - (days_in_month_table m' + (if (m' =? 2) && leapyear then 1 else 0)) in
    (m', n - preceding' + 1)
  else (m, n - preceding + 1).

(** The check of [month_day] on one day of a year. *)
Definition month_day_ok (leap : bool) (n : Z) : bool :=
  let '(m, d) := month_day n leap in
  (1 <=? m) && (m <=? 12) && (1 <=? d)
  && (d <=? (if (m =? 2) && leap then 29 else days_in_month_table m))
  && (days_before_month_table m + (if (2 <? m) && leap then 1 else 0) + d =? n + 1).


(** * Properties *)

(** ** The matcher reads exactly what [matches] allows *)

Section MatcherFacts.
Context {R : Type}.

Lemma star_match_sound p s : forall bef (k : list ascii -> list ascii -> option R) x cap,
  star_match p bef s k = Some x ->
  exists bef' s', matches (Star p) bef s cap bef' s' cap /\ k bef' s' = Some x.
Proof.
  induction s as [|c s IH]; intros bef k x cap H; simpl in H.
  - exists bef, []. split; [constructor | exact H].
  - destruct (p c) eqn:Hp.
    + destruct (star_match p (c :: bef) s k) as [y|] eqn:Hs.
      * inversion H; subst y.
        destruct (IH _ _ _ cap Hs) as (bef' & s' & Hm & Hk).
        exists bef', s'. split; [by apply M_star_step | exact Hk].
      * exists bef, (c :: s). split; [constructor | exact H].
    + exists bef, (c :: s). split; [constructor | exact H].
Qed.

Lemma rmatch_sound r : forall bef s cap (k : list ascii -> list ascii -> capture -> option R) x,
  rmatch r bef s cap k = Some x ->
  exists bef' s' cap', matches r bef s cap bef' s' cap' /\ k bef' s' cap' = Some x.
Proof.
  induction r as [|c|p|r1 IH1 r2 IH2|r1 IH1 r2 IH2|r1 IH1|p| |r1 IH1];
    intros bef s cap k x H; simpl in H.
  - exists bef, s, cap. split; [constructor | exact H].
  - destruct s as [|y s]; [discriminate|].
    destruct (ci_eqb y c) eqn:Hc; [|discriminate].
    exists (y :: bef), s, cap. split; [by constructor | exact H].
  - destruct s as [|y s]; [discriminate|].
    destruct (p y) eqn:Hc; [|discriminate].
    exists (y :: bef), s, cap. split; [by constructor | exact H].
  - destruct (IH1 _ _ _ _ _ H) as (b1 & s1 & c1 & Hm1 & H1).
    destruct (IH2 _ _ _ _ _ H1) as (b2 & s2 & c2 & Hm2 & H2).
    exists b2, s2, c2. split; [by eapply M_seq | exact H2].
  - destruct (rmatch r1 bef s cap k) as [y|] eqn:H1.
    + inversion H; subst y.
      destruct (IH1 _ _ _ _ _ H1) as (b1 & s1 & c1 & Hm1 & Hk).
      exists b1, s1, c1. split; [by apply M_alt_l | exact Hk].
    + destruct (IH2 _ _ _ _ _ H) as (b1 & s1 & c1 & Hm1 & Hk).
      exists b1, s1, c1. split; [by apply M_alt_r | exact Hk].
  - destruct (rmatch r1 bef s cap k) as [y|] eqn:H1.
    + inversion H; subst y.
      destruct (IH1 _ _ _ _ _ H1) as (b1 & s1 & c1 & Hm1 & Hk).
      exists b1, s1, c1. split; [by apply M_opt_take | exact Hk].
    + exists bef, s, cap. split; [apply M_opt_skip | exact H].
  - destruct (star_match_sound _ _ _ _ _ cap H) as (b1 & s1 & Hm & Hk).
    exists b1, s1, cap. split; [exact Hm | exact Hk].
  - destruct (xorb (word_before bef) (word_after s)) eqn:Hb; [|discriminate].
    exists bef, s, cap. split; [by constructor | exact H].
  - destruct (IH1 _ _ _ _ _ H) as (b1 & s1 & c1 & Hm1 & Hk).
    exists b1, s1, (Some (consumed bef b1)). split; [by eapply M_group | exact Hk].
Qed.

Lemma rmatch_complete r bef s cap bef' s' cap' :
  matches r bef s cap bef' s' cap' ->
  forall k : list ascii -> list ascii -> capture -> option R,
    is_Some (k bef' s' cap') -> is_Some (rmatch r bef s cap k).
Proof.
  induction 1 as
    [ bef s cap | c x bef s cap Hc | p x bef s cap Hp
    | r1 r2 bef s cap b1 s1 c1 b2 s2 c2 _ IH1 _ IH2
    | r1 r2 bef s cap b1 s1 c1 _ IH | r1 r2 bef s cap b1 s1 c1 _ IH
    | r bef s cap b1 s1 c1 _ IH | r bef s cap
    | p bef s cap | p x bef s cap b1 s1 c1 Hp _ IH
    | bef s cap Hb | r bef s cap b1 s1 c1 _ IH ];
    intros k Hk; simpl.
  - exact Hk.
  - by rewrite Hc.
  - by rewrite Hp.
  - apply IH1. by apply IH2.
  - destruct (rmatch r1 bef s cap k) eqn:H1; [by eexists|].
    specialize (IH k Hk). rewrite H1 in IH. by destruct IH.
  - destruct (rmatch r1 bef s cap k) eqn:H1; [by eexists|]. by apply IH.
  - destruct (rmatch r bef s cap k) eqn:H1; [by eexists|].
    specialize (IH k Hk). rewrite H1 in IH. by destruct IH.
  - destruct (rmatch r bef s cap k) eqn:H1; [by eexists | exact Hk].
  - destruct s as [|c s]; simpl; [exact Hk|].
    destruct (p c); [|exact Hk].
    destruct (star_match p (c :: bef) s (fun b t => k b t cap)); [by eexists | exact Hk].
  - rewrite Hp. specialize (IH k Hk). simpl in IH.
    destruct (star_match p (x :: bef) s (fun b t => k b t cap)); [by eexists|].
    by destruct IH.
  - by rewrite Hb.
  - apply IH. exact Hk.
Qed.
End MatcherFacts.

Lemma rmatch_none_no_match r bef s :
  rmatch r bef s None (fun _ _ cap => Some cap) = None ->
  forall b' t' c', ~ matches r bef s None b' t' c'.
Proof.
  intros Hn b' t' c' Hm.
  destruct (rmatch_complete _ _ _ _ _ _ _ Hm (fun _ _ cap => Some cap)) as [y Hy];
    [by eexists|].
  congruence.
Qed.

(** ** [re.search] finds the leftmost position where the pattern matches *)

Lemma search_from_found r s : forall bef cap,
  search_from r bef s = Some cap ->
  exists pre suf,
    s = pre ++ suf
    /\ (exists b' t', matches r (rev pre ++ bef) suf None b' t' cap)
    /\ forall pre1 suf1, s = pre1 ++ suf1 -> (length pre1 < length pre)%nat ->
         forall b' t' c', ~ matches r (rev pre1 ++ bef) suf1 None b' t' c'.
Proof.
  induction s as [|c s IH]; intros bef cap H; simpl in H.
  - destruct (rmatch r bef [] None (fun _ _ cap0 => Some cap0)) as [y|] eqn:Hr;
      [|discriminate].
    inversion H; subst y.
    destruct (rmatch_sound _ _ _ _ _ _ Hr) as (b' & t' & c' & Hm & Hk).
    inversion Hk; subst c'.
    exists [], []. split; [done|]. split; [by exists b', t'|].
    intros ? ? _ Hl. simpl in Hl. lia.
  - destruct (rmatch r bef (c :: s) None (fun _ _ cap0 => Some cap0)) as [y|] eqn:Hr.
    + inversion H; subst y.
      destruct (rmatch_sound _ _ _ _ _ _ Hr) as (b' & t' & c' & Hm & Hk).
      inversion Hk; subst c'.
      exists [], (c :: s). split; [done|]. split; [by exists b', t'|].
      intros ? ? _ Hl. simpl in Hl. lia.
    + destruct (IH _ _ H) as (pre & suf & Hs & (b' & t' & Hm) & Hfirst).
      exists (c :: pre), suf. split; [by rewrite Hs|]. split.
      * exists b', t'. simpl. by rewrite <- app_assoc.
      * intros pre1 suf1 Hsplit Hl b1 t1 c1 Hm1.
        destruct pre1 as [|c0 pre1]; simpl in *.
        -- subst suf1. by eapply rmatch_none_no_match.
        -- inversion Hsplit; subst c0.
           eapply (Hfirst pre1 suf1); [done | lia |].
           rewrite <- app_assoc in Hm1. exact Hm1.
Qed.

Lemma search_from_none r s : forall bef,
  search_from r bef s = None ->
  forall pre suf, s = pre ++ suf ->
    forall b' t' c', ~ matches r (rev pre ++ bef) suf None b' t' c'.
Proof.
  induction s as [|c s IH]; intros bef H pre suf Hsplit b' t' c' Hm; simpl in H.
  - destruct (rmatch r bef [] None (fun _ _ cap0 => Some cap0)) eqn:Hr;
      [discriminate|].
    symmetry in Hsplit. apply app_eq_nil in Hsplit as [-> ->].
    by eapply rmatch_none_no_match.
  - destruct (rmatch r bef (c :: s) None (fun _ _ cap0 => Some cap0)) eqn:Hr;
      [discriminate|].
    destruct pre as [|c0 pre]; simpl in *.
    + subst suf. by eapply rmatch_none_no_match.
    + inversion Hsplit; subst c0.
      eapply (IH _ H pre suf); [done|].
      rewrite <- app_assoc in Hm. exact Hm.
Qed.

Lemma re_search_found r text cap :
  re_search r text = Some cap ->
  exists pre suf,
    list_ascii_of_string text = pre ++ suf
    /\ matches_at r pre suf cap
    /\ forall pre1 suf1 c', list_ascii_of_string text = pre1 ++ suf1 ->
         (length pre1 < length pre)%nat -> ~ matches_at r pre1 suf1 c'.
Proof.
  intros H. destruct (search_from_found _ _ _ _ H) as (pre & suf & Hs & Hm & Hf).
  exists pre, suf. split; [done|]. split.
  - destruct Hm as (b' & t' & Hm). exists b', t'. by rewrite app_nil_r in Hm.
  - intros pre1 suf1 c' Hs1 Hl (b' & t' & Hm1).
    eapply (Hf pre1 suf1 Hs1 Hl). rewrite app_nil_r. exact Hm1.
Qed.

Lemma re_search_none r text :
  re_search r text = None ->
  forall pre suf c', list_ascii_of_string text = pre ++ suf ->
    ~ matches_at r pre suf c'.
Proof.
  intros H pre suf c' Hs (b' & t' & Hm).
  eapply (search_from_none _ _ _ H pre suf Hs). rewrite app_nil_r. exact Hm.
Qed.

Lemma re_search_some r text pre suf cap :
  list_ascii_of_string text = pre ++ suf ->
  matches_at r pre suf cap ->
  found (re_search r text) = true.
Proof.
  intros Hs Hm. destruct (re_search r text) eqn:H; [done|].
  exfalso. by eapply re_search_none.
Qed.

(** ** Patterns without [\b] and without a group read the words of [lang] *)

Lemma matches_lang r bef s cap bef' s' cap' :
  matches r bef s cap bef' s' cap' ->
  plain r = true ->
  exists l, lang r l /\ s = l ++ s' /\ bef' = rev l ++ bef /\ cap' = cap.
Proof.
  induction 1 as
    [ bef s cap | c x bef s cap Hc | p x bef s cap Hp
    | r1 r2 bef s cap b1 s1 c1 b2 s2 c2 _ IH1 _ IH2
    | r1 r2 bef s cap b1 s1 c1 _ IH | r1 r2 bef s cap b1 s1 c1 _ IH
    | r bef s cap b1 s1 c1 _ IH | r bef s cap
    | p bef s cap | p x bef s cap b1 s1 c1 Hp _ IH
    | bef s cap Hb | r bef s cap b1 s1 c1 _ IH ];
    simpl; intros Hplain.
  - by exists [].
  - exists [x]. split; [by exists x | done].
  - exists [x]. split; [by exists x | done].
  - apply andb_prop in Hplain as [P1 P2].
    destruct (IH1 P1) as (l1 & L1 & -> & -> & ->).
    destruct (IH2 P2) as (l2 & L2 & -> & -> & ->).
    exists (l1 ++ l2). split; [by exists l1, l2|].
    by rewrite rev_app_distr, <- !app_assoc.
  - apply andb_prop in Hplain as [P1 P2].
    destruct (IH P1) as (l & L & -> & -> & ->). exists l. by split; [left|].
  - apply andb_prop in Hplain as [P1 P2].
    destruct (IH P2) as (l & L & -> & -> & ->). exists l. by split; [right|].
  - destruct (IH Hplain) as (l & L & -> & -> & ->). exists l. by split; [right|].
  - exists []. by split; [left|].
  - by exists [].
  - destruct (IH Hplain) as (l & L & -> & -> & ->).
    exists (x :: l). split; [by constructor|].
    simpl. by rewrite <- app_assoc.
  - discriminate.
  - discriminate.
Qed.

Lemma star_lang_matches p l : forall bef s cap,
  Forall (fun x => p x = true) l ->
  matches (Star p) bef (l ++ s) cap (rev l ++ bef) s cap.
Proof.
  induction l as [|x l IH]; intros bef s cap Hl; simpl.
  - constructor.
  - inversion Hl; subst. apply M_star_step; [done|].
    rewrite <- app_assoc. simpl. by apply IH.
Qed.

Lemma lang_matches r : forall l bef s cap,
  plain r = true -> lang r l ->
  matches r bef (l ++ s) cap (rev l ++ bef) s cap.
Proof.
  induction r as [|c|p|r1 IH1 r2 IH2|r1 IH1 r2 IH2|r1 IH1|p| |r1 IH1];
    simpl; intros l bef s cap Hplain Hl.
  - subst l. constructor.
  - destruct Hl as (x & -> & Hx). by constructor.
  - destruct Hl as (x & -> & Hx). by constructor.
  - apply andb_prop in Hplain as [P1 P2].
    destruct Hl as (l1 & l2 & -> & L1 & L2).
    rewrite rev_app_distr, <- !app_assoc.
    eapply M_seq; [by apply IH1 | by apply IH2].
  - apply andb_prop in Hplain as [P1 P2].
    destruct Hl as [L|L]; [apply M_alt_l; by apply IH1 | apply M_alt_r; by apply IH2].
  - destruct Hl as [->|L]; [apply M_opt_skip | apply M_opt_take; by apply IH1].
  - by apply star_lang_matches.
  - done.
  - done.
Qed.

Lemma lang_lit w : forall l, lang (lit w) l <-> ci_word w l.
Proof.
  unfold ci_word.
  induction w as [|c w IH]; intros l; simpl; split.
  - intros ->. constructor.
  - by inversion 1.
  - intros (l1 & l2 & -> & (x & -> & Hx) & L2).
    simpl. constructor; [done | by apply IH].
  - inversion 1 as [|x c' l' w' Hx Hl]; subst.
    exists [x], l'. split; [done|]. split; [by exists x | by apply IH].
Qed.

Lemma plain_lit w : plain (lit w) = true.
Proof. induction w as [|c w IH]; simpl; [done | exact IH]. Qed.

Lemma plain_seq rs : forallb plain rs = true -> plain (seq rs) = true.
Proof.
  induction rs as [|r rs IH]; simpl; [done|].
  intros H. apply andb_prop in H as [H1 H2].
  by rewrite H1, IH.
Qed.

Lemma matches_seq_app rs1 : forall rs2 bef s cap bef' s' cap',
  matches (seq (rs1 ++ rs2)) bef s cap bef' s' cap' <->
  exists b1 s1 c1,
    matches (seq rs1) bef s cap b1 s1 c1
    /\ matches (seq rs2) b1 s1 c1 bef' s' cap'.
Proof.
  induction rs1 as [|r rs1 IH]; intros rs2 bef s cap bef' s' cap'; simpl; split.
  - intros H. exists bef, s, cap. split; [constructor | exact H].
  - intros (b1 & s1 & c1 & H1 & H2). by inversion H1; subst.
  - inversion 1 as [| | |? ? ? ? ? b1 s1 c1 ? ? ? Hr Hrest| | | | | | | |]; subst.
    apply IH in Hrest as (b2 & s2 & c2 & Ha & Hb).
    exists b2, s2, c2. split; [by eapply M_seq | done].
  - intros (b1 & s1 & c1 & H1 & H2).
    inversion H1 as [| | |? ? ? ? ? b0 s0 c0 ? ? ? Hr Hrest| | | | | | | |]; subst.
    eapply M_seq; [exact Hr|]. apply IH. by exists b1, s1, c1.
Qed.

Lemma consumed_one d bef : consumed bef (d :: bef) = [d].
Proof.
  unfold consumed.
  replace (length (d :: bef) - length bef)%nat with 1%nat by (simpl; lia).
  done.
Qed.

Lemma matches_digit_group p bef s cap bef' s' cap' :
  matches (seq [Group (Cls p)]) bef s cap bef' s' cap' <->
  exists d, p d = true /\ s = d :: s' /\ bef' = d :: bef /\ cap' = Some [d].
Proof.
  simpl. split.
  - inversion 1 as [| | |? ? ? ? ? b1 s1 c1 ? ? ? Hg He| | | | | | | |]; subst.
    inversion He; subst.
    inversion Hg as [| | | | | | | | | | |? ? ? ? ? ? ? Hc]; subst.
    inversion Hc; subst.
    exists x. by rewrite consumed_one.
  - intros (d & Hd & -> & -> & ->).
    eapply M_seq; [|constructor].
    rewrite <- (consumed_one d bef).
    apply (M_group (Cls p) bef (d :: s') cap (d :: bef) s' cap). by constructor.
Qed.

(** ** Facts on single characters, checked on all 256 of them *)

Lemma in_all_chars x : In x (map ascii_of_nat (List.seq 0 256)).
Proof.
  rewrite <- (ascii_nat_embedding x). apply in_map.
  apply in_seq. pose proof (nat_ascii_bounded x). lia.
Qed.

Lemma ascii_forall (P : ascii -> bool) :
  forallb P (map ascii_of_nat (List.seq 0 256)) = true -> forall x, P x = true.
Proof.
  intros H x. rewrite forallb_forall in H. apply H, in_all_chars.
Qed.

Ltac by_all_chars x :=
  revert x;
  match goal with
  | |- forall x, ?P = true =>
      let f := constr:(fun x : ascii => P) in
      apply (ascii_forall f); vm_compute; reflexivity
  end.

Lemma ci_eqb_digit x c :
  ci_eqb x c = true -> is_digit c = false -> is_digit x = false.
Proof.
  intros H1 H2.
  assert (H : forallb (fun x => forallb (fun c =>
      implb (ci_eqb x c) (implb (negb (is_digit c)) (negb (is_digit x))))
      (map ascii_of_nat (List.seq 0 256)))
      (map ascii_of_nat (List.seq 0 256)) = true) by (vm_compute; reflexivity).
  rewrite forallb_forall in H. specialize (H x (in_all_chars x)).
  rewrite forallb_forall in H. specialize (H c (in_all_chars c)).
  rewrite H1, H2 in H. simpl in H. by destruct (is_digit x).
Qed.

Lemma hyphen_or_space_not_digit x :
  implb (hyphen_or_space x) (negb (is_digit x)) = true.
Proof. by_all_chars x. Qed.

Lemma colon_or_dash_not_digit x :
  implb (colon_or_dash x) (negb (is_digit x)) = true.
Proof. by_all_chars x. Qed.

Lemma is_space_not_digit x :
  implb (is_space x) (negb (is_digit x)) = true.
Proof. by_all_chars x. Qed.

Lemma ci_hyphen x :
  implb (ci_eqb x "-") (hyphen_or_space x) = true.
Proof. by_all_chars x. Qed.

Lemma ci_blank x :
  implb (ci_eqb x " ") (is_space x) = true.
Proof. by_all_chars x. Qed.

Lemma ci_three x :
  implb (ci_eqb x "3") (if ascii_dec x "3" then true else false) = true.
Proof. by_all_chars x. Qed.

Lemma implb_use (a b : bool) : implb a b = true -> a = true -> b = true.
Proof. by destruct a, b. Qed.

(** ** [birads_re] matches exactly the BI-RADS mentions *)

Lemma birads_re_matches pre suf cap :
  matches_at birads_re pre suf cap <->
  exists d, birads_mention suf d /\ cap = Some [d].
Proof.
  unfold matches_at, birads_re.
  change (seq [lit "BI"; Opt (Cls hyphen_or_space); lit "RAD"; Opt (Chr "S");
               Star is_space; Opt (Cls colon_or_dash); Star is_space;
               Group (Cls is_digit)])
    with (seq ([lit "BI"; Opt (Cls hyphen_or_space); lit "RAD"; Opt (Chr "S");
                Star is_space; Opt (Cls colon_or_dash); Star is_space]
               ++ [Group (Cls is_digit)])).
  split.
  - intros (b' & t' & H).
    apply matches_seq_app in H as (b1 & s1 & c1 & Hp & Hg).
    apply matches_digit_group in Hg as (d & Hd & -> & -> & ->).
    apply matches_lang in Hp as (l & L & -> & -> & ->); [|reflexivity].
    exists d. split; [|done].
    destruct L as (bi & l1 & -> & Lbi & sep & l2 & -> & Lsep & rad & l3 & ->
                   & Lrad & sfx & l4 & -> & Lsfx & ws1 & l5 & -> & Lws1
                   & punct & l6 & -> & Lpunct & ws2 & l7 & -> & Lws2 & ->).
    exists bi, sep, rad, sfx, ws1, punct, ws2, t'.
    rewrite app_nil_r, <- !app_assoc.
    apply lang_lit in Lbi. apply lang_lit in Lrad. by repeat split.
  - intros (d & (bi & sep & rad & sfx & ws1 & punct & ws2 & rest & -> & Hbi
                 & Hsep & Hrad & Hsfx & Hws1 & Hpunct & Hws2 & Hd) & ->).
    set (l := bi ++ sep ++ rad ++ sfx ++ ws1 ++ punct ++ ws2).
    exists (d :: rev l ++ rev pre), rest.
    apply matches_seq_app. exists (rev l ++ rev pre), (d :: rest), None. split.
    + replace (bi ++ sep ++ rad ++ sfx ++ ws1 ++ punct ++ ws2 ++ d :: rest)
        with (l ++ d :: rest) by (unfold l; by rewrite <- !app_assoc).
      apply lang_matches; [reflexivity|].
      exists bi, (sep ++ rad ++ sfx ++ ws1 ++ punct ++ ws2).
      split; [done|]. split; [by apply lang_lit|].
      exists sep, (rad ++ sfx ++ ws1 ++ punct ++ ws2).
      split; [done|]. split; [exact Hsep|].
      exists rad, (sfx ++ ws1 ++ punct ++ ws2).
      split; [done|]. split; [by apply lang_lit|].
      exists sfx, (ws1 ++ punct ++ ws2).
      split; [done|]. split; [exact Hsfx|].
      exists ws1, (punct ++ ws2).
      split; [done|]. split; [exact Hws1|].
      exists punct, ws2.
      split; [done|]. split; [exact Hpunct|].
      exists ws2, []. by rewrite app_nil_r.
    + apply matches_digit_group. by exists d.
Qed.

(** The digit of a mention is the first digit from its start on. *)

Lemma find_digit_after l d rest :
  Forall (fun x => is_digit x = false) l -> is_digit d = true ->
  List.find is_digit (l ++ d :: rest) = Some d.
Proof.
  induction 1 as [|x l Hx _ IH]; intros Hd; simpl.
  - by rewrite Hd.
  - rewrite Hx. by apply IH.
Qed.

Lemma ci_word_no_digit w l :
  ci_word w l ->
  forallb (fun c => negb (is_digit c)) (list_ascii_of_string w) = true ->
  Forall (fun x => is_digit x = false) l.
Proof.
  unfold ci_word. induction 1 as [|x c l w' Hx _ IH]; simpl; intros Hw.
  - constructor.
  - apply andb_prop in Hw as [Hc Hw]. constructor; [|by apply IH].
    eapply ci_eqb_digit; [exact Hx|]. by destruct (is_digit c).
Qed.

Lemma at_most_one_no_digit p l :
  (forall x, implb (p x) (negb (is_digit x)) = true) ->
  at_most_one p l -> Forall (fun x => is_digit x = false) l.
Proof.
  intros Hp [->|(c & -> & Hc)]; [constructor|].
  constructor; [|constructor].
  specialize (Hp c). rewrite Hc in Hp. simpl in Hp. by destruct (is_digit c).
Qed.

Lemma blanks_no_digit l :
  blanks l -> Forall (fun x => is_digit x = false) l.
Proof.
  unfold blanks. intros Hl. eapply Forall_impl; [exact Hl|]. simpl.
  intros x Hx.
  pose proof (is_space_not_digit x) as H. rewrite Hx in H. simpl in H.
  by destruct (is_digit x).
Qed.

Lemma birads_mention_first_digit s d :
  birads_mention s d -> List.find is_digit s = Some d.
Proof.
  intros (bi & sep & rad & sfx & ws1 & punct & ws2 & rest & -> & Hbi
          & Hsep & Hrad & Hsfx & Hws1 & Hpunct & Hws2 & Hd).
  rewrite !app_assoc. apply find_digit_after; [|done].
  repeat apply Forall_app_2.
  - by eapply ci_word_no_digit.
  - by eapply at_most_one_no_digit; [apply hyphen_or_space_not_digit|].
  - by eapply ci_word_no_digit.
  - eapply (at_most_one_no_digit (fun c => ci_eqb c "S")); [|done].
    intros x. destruct (ci_eqb x "S") eqn:Hx; [|done]. simpl.
    by rewrite (ci_eqb_digit _ _ Hx).
  - by apply blanks_no_digit.
  - by eapply at_most_one_no_digit; [apply colon_or_dash_not_digit|].
  - by apply blanks_no_digit.
Qed.

Lemma birads_mention_digit s d d' :
  birads_mention s d -> birads_mention s d' -> d = d'.
Proof.
  intros H1 H2.
  apply birads_mention_first_digit in H1, H2. congruence.
Qed.

(** ** TimeframePolicy *)

Lemma table_get_outside z : z < 0 \/ 6 < z -> table_get z = PNone.
Proof.
  intros Hz. unfold table_get, timeframe_table.
  rewrite !lookup_insert_ne by lia. by rewrite lookup_empty.
Qed.

(** C1. For birads 0, 1, 2, 3, 4, 5, 6 the timeframe lookup returns 7, 365,
    365, 180, 7, 7, 0 days; for [None] and for every integer outside 0..6
    it returns [None], which is neither zero nor an exception. *)
Theorem timeframe_from_birads_table :
  timeframe_from_birads (PInt 0) = Ok (PInt 7)
  /\ timeframe_from_birads (PInt 1) = Ok (PInt 365)
  /\ timeframe_from_birads (PInt 2) = Ok (PInt 365)
  /\ timeframe_from_birads (PInt 3) = Ok (PInt 180)
  /\ timeframe_from_birads (PInt 4) = Ok (PInt 7)
  /\ timeframe_from_birads (PInt 5) = Ok (PInt 7)
  /\ timeframe_from_birads (PInt 6) = Ok (PInt 0)
  /\ timeframe_from_birads PNone = Ok PNone
  /\ forall z, z < 0 \/ 6 < z -> timeframe_from_birads (PInt z) = Ok PNone.
Proof.
  repeat split; try reflexivity.
  intros z Hz. simpl. by rewrite table_get_outside.
Qed.

Lemma timeframe_from_birads_table_witness :
  (7 < 0 \/ 6 < 7) /\ timeframe_from_birads (PInt 7) = Ok PNone.
Proof.
  split; [right; lia|].
  apply (proj2 (proj2 (proj2 (proj2 (proj2 (proj2 (proj2 (proj2
           timeframe_from_birads_table)))))))).
  right; lia.
Defined.

(** ** BI-RADS extraction *)

Lemma py_int_digit d : is_digit d = true -> py_int [d] = Ok (digit_value d).
Proof. intros Hd. unfold py_int. simpl. by rewrite Hd. Qed.

Lemma digit_value_range d : is_digit d = true -> 0 <= digit_value d <= 9.
Proof. unfold is_digit, in_range, digit_value. lia. Qed.

Lemma mention_matches_at pre suf d :
  birads_mention suf d -> matches_at birads_re pre suf (Some [d]).
Proof. intros H. apply birads_re_matches. by exists d. Qed.

Lemma extract_birads_first text d :
  first_mention (list_ascii_of_string text) d ->
  extract_birads text = Ok (PInt (digit_value d)).
Proof.
  intros (pre & suf & Hs & Hm & Hbefore). unfold extract_birads.
  destruct (re_search birads_re text) as [cap|] eqn:Hr.
  - destruct (re_search_found _ _ _ Hr) as (pre' & suf' & Hs' & Hm' & Hleft).
    apply birads_re_matches in Hm' as (d' & Hd' & ->).
    assert (Hlen : length pre = length pre').
    { destruct (Nat.lt_trichotomy (length pre) (length pre')) as [Hl|[Hl|Hl]];
        [|done|].
      - exfalso. eapply (Hleft pre suf); [done | done |].
        by apply mention_matches_at.
      - exfalso. by eapply (Hbefore pre' suf'). }
    rewrite Hs in Hs'. apply app_inj_1 in Hs' as [-> ->]; [|done].
    rewrite (birads_mention_digit _ _ _ Hd' Hm).
    destruct Hm as (? & ? & ? & ? & ? & ? & ? & ? & _ & _ & _ & _ & _ & _ & _ & _ & Hd).
    by rewrite py_int_digit.
  - exfalso. eapply (re_search_none _ _ Hr pre suf); [done|].
    by apply mention_matches_at.
Qed.

Lemma extract_birads_no_mention text :
  no_mention (list_ascii_of_string text) -> extract_birads text = Ok PNone.
Proof.
  intros Hno. unfold extract_birads.
  destruct (re_search birads_re text) as [cap|] eqn:Hr; [|done].
  destruct (re_search_found _ _ _ Hr) as (pre' & suf' & Hs' & Hm' & _).
  apply birads_re_matches in Hm' as (d' & Hd' & _).
  exfalso. by eapply Hno.
Qed.

Lemma mention_dichotomy text :
  (exists d, first_mention (list_ascii_of_string text) d)
  \/ no_mention (list_ascii_of_string text).
Proof.
  destruct (re_search birads_re text) as [cap|] eqn:Hr.
  - left. destruct (re_search_found _ _ _ Hr) as (pre & suf & Hs & Hm & Hleft).
    apply birads_re_matches in Hm as (d & Hd & _).
    exists d, pre, suf. split; [done|]. split; [done|].
    intros pre1 suf1 d1 Hs1 Hl Hm1.
    eapply Hleft; [done | done | by apply mention_matches_at].
  - right. intros pre suf d Hs Hm.
    eapply (re_search_none _ _ Hr); [done | by apply mention_matches_at].
Qed.

(** The rule-based BI-RADS is [None] or one digit, never an exception. *)
Lemma extract_birads_digit text :
  extract_birads text = Ok PNone
  \/ exists n, 0 <= n <= 9 /\ extract_birads text = Ok (PInt n).
Proof.
  destruct (mention_dichotomy text) as [(d & Hd)|Hno].
  - right. exists (digit_value d). split; [|by apply extract_birads_first].
    destruct Hd as (? & ? & _ & Hm & _).
    destruct Hm as (? & ? & ? & ? & ? & ? & ? & ? & _ & _ & _ & _ & _ & _ & _ & _ & Hd).
    by apply digit_value_range.
  - left. by apply extract_birads_no_mention.
Qed.

Lemma variant_mention mid post :
  birads3_variant mid -> birads_mention (mid ++ post) "3".
Proof.
  unfold birads3_variant, ci_word. simpl.
  intros [H|[H|H]];
    repeat match goal with
      | H : Forall2 _ _ (_ :: _) |- _ => inversion H; subst; clear H
      | H : Forall2 _ _ [] |- _ => inversion H; subst; clear H
      end;
    match goal with
    | H : ci_eqb ?x "3" = true |- _ =>
        let E := fresh "E" in
        pose proof (implb_use _ _ (ci_three x) H) as E;
        destruct (ascii_dec x "3") as [->|]; [clear E|discriminate]
    end.
  - match goal with
    | |- birads_mention ([?b; ?i; ?h; ?r; ?a; ?d; ?s; ?sp; _] ++ _) _ =>
        exists [b; i], [h], [r; a; d], [s], [sp], [], [], post
    end.
    repeat split; try done.
    + by repeat constructor.
    + right. eexists. split; [done|]. by eapply implb_use; [apply ci_hyphen|].
    + by repeat constructor.
    + right. by eexists.
    + constructor; [|constructor]. by eapply implb_use; [apply ci_blank|].
    + by left.
    + constructor.
  - match goal with
    | |- birads_mention ([?b; ?i; ?h; ?r; ?a; ?d; ?s; ?sp; _] ++ _) _ =>
        exists [b; i], [h], [r; a; d], [s], [sp], [], [], post
    end.
    repeat split; try done.
    + by repeat constructor.
    + right. eexists. split; [done|].
      match goal with
      | |- hyphen_or_space ?h = true =>
          unfold hyphen_or_space;
          rewrite (implb_use _ _ (ci_blank h)) by assumption
      end.
      apply orb_true_r.
    + by repeat constructor.
    + right. by eexists.
    + constructor; [|constructor]. by eapply implb_use; [apply ci_blank|].
    + by left.
    + constructor.
  - match goal with
    | |- birads_mention ([?b; ?i; ?r; ?a; ?d; ?s; ?sp; _] ++ _) _ =>
        exists [b; i], [], [r; a; d], [s], [sp], [], [], post
    end.
    repeat split; try done.
    + by repeat constructor.
    + by left.
    + by repeat constructor.
    + right. by eexists.
    + constructor; [|constructor]. by eapply implb_use; [apply ci_blank|].
    + by left.
    + constructor.
Qed.

(** C5, as the code has it.  The extraction returns the digit of the
    first BI-RADS mention of the text, and [None] when the text has none;
    every text is in one of the two cases, so it never raises.  A text
    with "BI-RADS 3" (in any case; with a hyphen, a blank or nothing
    between BI and RADS) gives 3 when no mention starts before it. *)
Theorem extract_birads_first_mention :
  (forall text pre mid post,
      list_ascii_of_string text = pre ++ mid ++ post ->
      birads3_variant mid ->
      no_mention_before (list_ascii_of_string text) (length pre) ->
      extract_birads text = Ok (PInt 3))
  /\ (forall text d,
        first_mention (list_ascii_of_string text) d ->
        extract_birads text = Ok (PInt (digit_value d)))
  /\ (forall text,
        no_mention (list_ascii_of_string text) ->
        extract_birads text = Ok PNone)
  /\ (forall text,
        (exists d, first_mention (list_ascii_of_string text) d)
        \/ no_mention (list_ascii_of_string text)).
Proof.
  split; [|split; [|split]].
  - intros text pre mid post Hs Hv Hbefore.
    change 3 with (digit_value "3"). apply extract_birads_first.
    exists pre, (mid ++ post). split; [done|]. split; [|done].
    by apply variant_mention.
  - apply extract_birads_first.
  - apply extract_birads_no_mention.
  - apply mention_dichotomy.
Qed.

Lemma extract_birads_first_mention_witness :
  extract_birads "Bi-Rads 3 (probably benign)" = Ok (PInt 3).
Proof.
  apply (proj1 extract_birads_first_mention _ []
           (list_ascii_of_string "Bi-Rads 3")
           (list_ascii_of_string " (probably benign)")).
  - reflexivity.
  - left. unfold ci_word. simpl. repeat constructor.
  - intros pre suf d _ Hl. simpl in Hl. lia.
Defined.

(** C5, as stated, fails: a text can hold "BI-RADS 3" after
    an earlier mention with another digit. *)
Lemma extract_birads_later_mention_ignored :
  contains_ci "BI-RADS 3" "BI-RADS 5 today; prior study BI-RADS 3"
  /\ extract_birads "BI-RADS 5 today; prior study BI-RADS 3" = Ok (PInt 5).
Proof.
  split; [|reflexivity].
  exists (list_ascii_of_string "BI-RADS 5 today; prior study "),
         (list_ascii_of_string "BI-RADS 3"), [].
  split; [reflexivity|]. unfold ci_word. simpl. repeat constructor.
Qed.

(** ** Density extraction *)

Lemma contains_ci_found w r text :
  contains_ci w text -> found (re_search (Alt (lit w) r) text) = true.
Proof.
  intros (pre & mid & post & Hs & Hw).
  apply (re_search_some _ _ pre (mid ++ post) None); [done|].
  exists (rev mid ++ rev pre), post.
  apply M_alt_l, lang_matches; [apply plain_lit | by apply lang_lit].
Qed.

(** C4. The four groups are tried in the order D, C, B, A, the first one
    that matches gives the result, and the result is "unknown" when none
    does; a text with both "extremely dense" and "density B" gives "D". *)
Theorem extract_density_priority :
  map snd density_patterns = ["D"; "C"; "B"; "A"]
  /\ (forall text,
        let hit i := found (re_search (nth i (map fst density_patterns) Eps) text) in
        extract_density text =
          if hit 0%nat then "D"
          else if hit 1%nat then "C"
          else if hit 2%nat then "B"
          else if hit 3%nat then "A"
          else "unknown")
  /\ (forall text,
        contains_ci "extremely dense" text ->
        contains_ci "density B" text ->
        extract_density text = "D").
Proof.
  split; [reflexivity|]. split; [reflexivity|].
  intros text HD _. unfold extract_density, density_patterns, first_code.
  by rewrite (contains_ci_found _ _ _ HD).
Qed.

Lemma extract_density_priority_witness :
  contains_ci "extremely dense" "Density B reported; extremely dense tissue"
  /\ contains_ci "density B" "Density B reported; extremely dense tissue"
  /\ extract_density "Density B reported; extremely dense tissue" = "D".
Proof.
  assert (H1 : contains_ci "extremely dense" "Density B reported; extremely dense tissue").
  { exists (list_ascii_of_string "Density B reported; "),
           (list_ascii_of_string "extremely dense"),
           (list_ascii_of_string " tissue").
    split; [reflexivity|]. unfold ci_word. simpl. repeat constructor. }
  assert (H2 : contains_ci "density B" "Density B reported; extremely dense tissue").
  { exists [], (list_ascii_of_string "Density B"),
           (list_ascii_of_string " reported; extremely dense tissue").
    split; [reflexivity|]. unfold ci_word. simpl. repeat constructor. }
  split; [exact H1|]. split; [exact H2|].
  exact (proj2 (proj2 extract_density_priority) _ H1 H2).
Defined.

(** ** The enrichment merge *)

Lemma override_key_dict d e k :
  override_key (PDict d) e k =
    Ok (match d !! k with
        | Some v => if none_or_empty v then e else <[k := v]> e
        | None => e
        end).
Proof.
  unfold override_key. simpl.
  destruct (d !! k) as [v|]; simpl; [|done]. by destruct (none_or_empty v).
Qed.

Lemma override_loop_dict d keys : forall e : gmap string PyVal,
  exists e' : gmap string PyVal,
    override_loop (PDict d) keys e = Ok e'
    /\ forall k, e' !! k =
         if decide (k ∈ keys) then overridden d k (e !! k) else e !! k.
Proof.
  induction keys as [|k0 keys IH]; intros e; simpl.
  - exists e. split; [done|]. intros k.
    destruct (decide (k ∈ [])) as [Hin|Hin]; [|done]. by apply elem_of_nil in Hin.
  - rewrite override_key_dict. simpl.
    set (e1 := match d !! k0 with
               | Some v => if none_or_empty v then e else <[k0 := v]> e
               | None => e
               end).
    destruct (IH e1) as (e' & Hloop & Hlook).
    exists e'. split; [done|]. intros k. rewrite Hlook.
    assert (H1 : e1 !! k =
      if decide (k = k0) then overridden d k (e !! k) else e !! k).
    { unfold e1, overridden. destruct (decide (k = k0)) as [->|Hne].
      - destruct (d !! k0) as [v|]; [|done].
        destruct (none_or_empty v); [done|]. by rewrite lookup_insert_eq.
      - destruct (d !! k0) as [v|]; [|done].
        destruct (none_or_empty v); [done|]. by rewrite lookup_insert_ne. }
    rewrite H1.
    assert (Hidem : overridden d k (overridden d k (e !! k)) = overridden d k (e !! k)).
    { unfold overridden. destruct (d !! k) as [v|]; [|done].
      by destruct (none_or_empty v). }
    destruct (decide (k ∈ keys)) as [Hin|Hin];
      destruct (decide (k ∈ k0 :: keys)) as [Hin2|Hin2];
      destruct (decide (k = k0)) as [Heq|Hne];
      try done; try (subst; rewrite Hidem; done); exfalso; set_solver.
Qed.

Lemma elem_of_dict_keys (e : gmap string PyVal) k :
  k ∈ dict_keys e <-> is_Some (e !! k).
Proof.
  unfold dict_keys. rewrite list_elem_of_fmap. split.
  - intros ([k' v] & -> & Hin). apply elem_of_map_to_list in Hin. by exists v.
  - intros [v Hv]. exists (k, v). split; [done|]. by apply elem_of_map_to_list.
Qed.

(** The override pass on a dict never raises; it keeps the keys of the
    base and changes the values as [overridden] says. *)
Lemma override_pass_dict (base d : gmap string PyVal) :
  exists e : gmap string PyVal,
    override_loop (PDict d) (dict_keys base) base = Ok e
    /\ forall k, e !! k =
         match base !! k with
         | Some b => overridden d k (Some b)
         | None => None
         end.
Proof.
  destruct (override_loop_dict d (dict_keys base) base) as (e & Hloop & Hlook).
  exists e. split; [done|]. intros k. rewrite Hlook.
  destruct (decide (k ∈ dict_keys base)) as [Hin|Hin].
  - apply elem_of_dict_keys in Hin as [b Hb]. by rewrite Hb.
  - destruct (base !! k) as [b|] eqn:Hb; [|done].
    exfalso. apply Hin, elem_of_dict_keys. by exists b.
Qed.

(** With a value that is not a dict the pass changes nothing or raises. *)
Lemma override_key_not_dict llm e k e' :
  (forall d, llm <> PDict d) -> override_key llm e k = Ok e' -> e' = e.
Proof.
  intros Hllm. unfold override_key.
  destruct llm as [| | |s|l|d]; simpl; try discriminate.
  - destruct (is_infix k s); [discriminate | by inversion 1].
  - destruct (existsb (eq_str k) l); [discriminate | by inversion 1].
  - by destruct (Hllm d).
Qed.

Lemma override_loop_not_dict llm keys : forall e e' : gmap string PyVal,
  (forall d, llm <> PDict d) -> override_loop llm keys e = Ok e' -> e' = e.
Proof.
  induction keys as [|k keys IH]; intros e e' Hllm; simpl.
  - by inversion 1.
  - destruct (override_key llm e k) as [e1|] eqn:H1; simpl; [|discriminate].
    intros H. apply override_key_not_dict in H1 as ->; [|done]. by apply IH.
Qed.

Lemma override_loop_empty keys : forall e : gmap string PyVal,
  override_loop (PDict ∅) keys e = Ok e.
Proof.
  induction keys as [|k keys IH]; intros e; simpl; [done|].
  rewrite override_key_dict, lookup_empty. simpl. apply IH.
Qed.

Lemma merge_empty (base : gmap string PyVal) tf :
  base !! K_timeframe = Some tf ->
  (tf = PNone -> timeframe_from_birads (dict_get base K_birads) = Ok PNone) ->
  merge base (PDict ∅) = Ok base.
Proof.
  intros Htf Hnone. unfold merge. rewrite override_loop_empty. simpl.
  unfold dict_get at 1. rewrite Htf. simpl.
  destruct tf; simpl; try done.
  rewrite Hnone by done. simpl. by rewrite insert_id.
Qed.

Lemma make_extraction_lookup b d l t :
  make_extraction b d l t !! K_birads = Some b
  /\ make_extraction b d l t !! K_density = Some d
  /\ make_extraction b d l t !! K_laterality = Some l
  /\ make_extraction b d l t !! K_findings = Some (PStr "")
  /\ make_extraction b d l t !! K_recommendation = Some (PStr "")
  /\ make_extraction b d l t !! K_timeframe = Some t.
Proof. repeat split; reflexivity. Qed.

(** The base extraction never raises, and its timeframe is the table's
    entry for its BI-RADS. *)
Lemma base_extraction_ok raw_text :
  exists birads tf,
    base_extraction raw_text =
      Ok (make_extraction birads (PStr (extract_density raw_text))
            (PStr (extract_laterality raw_text)) tf)
    /\ extract_birads raw_text = Ok birads
    /\ timeframe_from_birads birads = Ok tf
    /\ (birads = PNone \/ exists n, 0 <= n <= 9 /\ birads = PInt n).
Proof.
  unfold base_extraction.
  destruct (extract_birads_digit raw_text) as [H|(n & Hn & H)]; rewrite H; simpl.
  - exists PNone, PNone. repeat split; by left.
  - exists (PInt n), (table_get n). repeat split. right. by exists n.
Qed.

Lemma merge_base_empty raw_text base :
  base_extraction raw_text = Ok base -> merge base (PDict ∅) = Ok base.
Proof.
  destruct (base_extraction_ok raw_text) as (b & tf & -> & _ & Htf & _).
  inversion 1; subst base.
  apply (merge_empty _ tf).
  - apply make_extraction_lookup.
  - intros ->. unfold dict_get.
    by rewrite (proj1 (make_extraction_lookup _ _ _ _)).
Qed.

(** C2. On a dict the override pass never raises, and under each key of the
    base it leaves the enrichment's value when that value is there and is
    neither [None] nor [""], the base value otherwise; then a timeframe
    that is [None] is set to the table's entry for the record's BI-RADS as
    it stands after the pass.  So an enrichment with birads 5 and no
    timeframe, merged into a base without timeframe, gives birads 5 and
    the timeframe 7. *)
Theorem merge_override_then_timeframe :
  (forall base d : gmap string PyVal,
      exists e : gmap string PyVal,
        override_loop (PDict d) (dict_keys base) base = Ok e
        /\ (forall k, e !! k =
              match base !! k with
              | Some b =>
                  match d !! k with
                  | Some v => if none_or_empty v then Some b else Some v
                  | None => Some b
                  end
              | None => None
              end)
        /\ merge base (PDict d) =
             if is_None (dict_get e K_timeframe) then
               let* tf := timeframe_from_birads (dict_get e K_birads) in
               Ok (<[K_timeframe := tf]> e)
             else Ok e)
  /\ (forall base d : gmap string PyVal,
        is_Some (base !! K_birads) ->
        dict_get base K_timeframe = PNone ->
        d !! K_birads = Some (PInt 5) ->
        d !! K_timeframe = None ->
        exists e : gmap string PyVal,
          merge base (PDict d) = Ok e
          /\ e !! K_birads = Some (PInt 5)
          /\ e !! K_timeframe = Some (PInt 7)).
Proof.
  split.
  - intros base d. destruct (override_pass_dict base d) as (e & Hloop & Hlook).
    exists e. split; [done|]. split.
    + intros k. rewrite Hlook. unfold overridden.
      destruct (base !! k); [|done]. by destruct (d !! k).
    + unfold merge. by rewrite Hloop.
  - intros base d [b Hb] Htf H5 Hnotf.
    destruct (override_pass_dict base d) as (e & Hloop & Hlook).
    assert (He5 : e !! K_birads = Some (PInt 5)).
    { rewrite Hlook, Hb. unfold overridden. by rewrite H5. }
    assert (Hetf : dict_get e K_timeframe = PNone).
    { unfold dict_get in *. rewrite Hlook. unfold overridden. rewrite Hnotf.
      by destruct (base !! K_timeframe). }
    exists (<[K_timeframe := PInt 7]> e). unfold merge. rewrite Hloop. simpl.
    rewrite Hetf. simpl. unfold dict_get. rewrite He5. simpl.
    split; [done|]. split; [|by rewrite lookup_insert_eq].
    by rewrite lookup_insert_ne.
Qed.

Lemma merge_override_then_timeframe_witness :
  exists e : gmap string PyVal,
    merge (make_extraction (PInt 3) (PStr "B") (PStr "left") PNone)
          (PDict {[ K_birads := PInt 5 ]}) = Ok e
    /\ e !! K_birads = Some (PInt 5)
    /\ e !! K_timeframe = Some (PInt 7).
Proof.
  apply (proj2 merge_override_then_timeframe).
  - by eexists.
  - reflexivity.
  - reflexivity.
  - reflexivity.
Defined.

(** C3. Merging the empty enrichment leaves the base record unchanged, the
    timeframe included: the base record of every run is built with the
    timeframe that the table gives for its BI-RADS (app.py, line 164), every
    text gives such a base record, and the merge of the empty dict into it
    returns it as it is.  The same holds for any record whose timeframe is
    set, or is [None] with a BI-RADS the table has no entry for. *)
Theorem merge_empty_enrichment :
  (forall raw_text, exists base, base_extraction raw_text = Ok base)
  /\ (forall raw_text base,
        base_extraction raw_text = Ok base -> merge base (PDict ∅) = Ok base)
  /\ (forall (base : gmap string PyVal) tf,
        base !! K_timeframe = Some tf ->
        (tf = PNone -> timeframe_from_birads (dict_get base K_birads) = Ok PNone) ->
        merge base (PDict ∅) = Ok base).
Proof.
  split; [|split; [apply merge_base_empty | apply merge_empty]].
  intros raw_text.
  destruct (base_extraction_ok raw_text) as (b & tf & H & _). by eexists.
Qed.

Lemma merge_empty_enrichment_witness :
  base_extraction "BI-RADS 3, heterogeneously dense, left breast"
  = Ok (make_extraction (PInt 3) (PStr "C") (PStr "left") (PInt 180))
  /\ merge (make_extraction (PInt 3) (PStr "C") (PStr "left") (PInt 180)) (PDict ∅)
     = Ok (make_extraction (PInt 3) (PStr "C") (PStr "left") (PInt 180)).
Proof.
  assert (H : base_extraction "BI-RADS 3, heterogeneously dense, left breast"
              = Ok (make_extraction (PInt 3) (PStr "C") (PStr "left") (PInt 180)))
    by reflexivity.
  split; [exact H|].
  exact (proj1 (proj2 merge_empty_enrichment) _ _ H).
Defined.

(** ** The records of the pipeline *)

Lemma merge_birads (base : gmap string PyVal) llm e b :
  base !! K_birads = Some b ->
  merge base llm = Ok e ->
  e !! K_birads = Some b
  \/ exists d v, llm = PDict d /\ d !! K_birads = Some v
               /\ none_or_empty v = false /\ e !! K_birads = Some v.
Proof.
  intros Hb. unfold merge.
  destruct (override_loop llm (dict_keys base) base) as [e1|] eqn:Hloop;
    simpl; [|discriminate].
  assert (H1 : e1 !! K_birads = Some b
               \/ exists d v, llm = PDict d /\ d !! K_birads = Some v
                     /\ none_or_empty v = false /\ e1 !! K_birads = Some v).
  { destruct llm as [| | | | |d];
      try (left; apply override_loop_not_dict in Hloop as ->; [done | discriminate]).
    destruct (override_pass_dict base d) as (e2 & Hloop2 & Hlook).
    rewrite Hloop in Hloop2. inversion Hloop2; subst e2.
    rewrite Hlook, Hb. unfold overridden.
    destruct (d !! K_birads) as [v|] eqn:Hv; [|by left].
    destruct (none_or_empty v) eqn:Hne; [by left|].
    right. by exists d, v. }
  assert (H2 : e !! K_birads = e1 !! K_birads -> 
               e !! K_birads = Some b
               \/ exists d v, llm = PDict d /\ d !! K_birads = Some v
                     /\ none_or_empty v = false /\ e !! K_birads = Some v).
  { intros ->. exact H1. }
  destruct (is_None (dict_get e1 K_timeframe)).
  - destruct (timeframe_from_birads (dict_get e1 K_birads)) as [tf|]; simpl;
      [|discriminate].
    inversion 1; subst e. apply H2. by rewrite lookup_insert_ne.
  - inversion 1; subst e. by apply H2.
Qed.

(** The end-to-end scenario of the specification, without enrichment. *)
Example pipeline_bilateral_report :
  pipeline no_credentials false
    "BILATERAL MAMMOGRAM: BI-RADS: 2. Findings: scattered fibroglandular density noted."
  = Ok (make_extraction (PInt 2) (PStr "B") (PStr "bilateral") (PInt 365)).
Proof. vm_compute. reflexivity. Qed.

(** C7, as the code has it.  In a record of the pipeline the BI-RADS is
    [None], or the digit 0..9 that the pattern read (7, 8 and 9 are kept),
    or, with enrichment, the value the enrichment gave for it when that
    value is neither [None] nor [""]; a run without enrichment always
    gives a record. *)
Theorem pipeline_birads_values :
  (forall w use_llm raw_text e,
      pipeline w use_llm raw_text = Ok e ->
      e !! K_birads = Some PNone
      \/ (exists n, 0 <= n <= 9 /\ e !! K_birads = Some (PInt n))
      \/ (use_llm = true
          /\ exists d v, llm_extract w raw_text = Ok (PDict d)
                /\ d !! K_birads = Some v /\ none_or_empty v = false
                /\ e !! K_birads = Some v))
  /\ (forall w raw_text, exists e, pipeline w false raw_text = Ok e).
Proof.
  split.
  - intros w use_llm raw_text e. unfold pipeline.
    destruct (base_extraction_ok raw_text) as (b & tf & -> & _ & _ & Hb). simpl.
    pose proof (proj1 (make_extraction_lookup b (PStr (extract_density raw_text))
                         (PStr (extract_laterality raw_text)) tf)) as Hlook.
    assert (Hbase : forall e0 : gmap string PyVal, e0 !! K_birads = Some b ->
              e0 !! K_birads = Some PNone
              \/ (exists n, 0 <= n <= 9 /\ e0 !! K_birads = Some (PInt n))).
    { intros e0 H0. destruct Hb as [->|(n & Hn & ->)]; [by left|].
      right. by exists n. }
    destruct use_llm.
    + destruct (llm_extract w raw_text) as [llm|] eqn:Hl; simpl; [|discriminate].
      intros Hm.
      destruct (merge_birads _ _ _ _ Hlook Hm) as [H|(d & v & -> & Hd & Hv & He)].
      * destruct (Hbase e H) as [?|?]; [by left | by right; left].
      * right. right. split; [reflexivity|]. exists d, v.
        split; [reflexivity|]. split; [exact Hd|]. split; [exact Hv | exact He].
    + inversion 1; subst e.
      destruct (Hbase _ Hlook) as [?|?]; [by left | by right; left].
  - intros w raw_text. unfold pipeline.
    destruct (base_extraction_ok raw_text) as (b & tf & -> & _). simpl.
    by eexists.
Qed.

Lemma pipeline_birads_values_witness :
  pipeline no_credentials false "BI-RADS 4"
  = Ok (make_extraction (PInt 4) (PStr "unknown") (PStr "unknown") (PInt 7))
  /\ (make_extraction (PInt 4) (PStr "unknown") (PStr "unknown") (PInt 7) !! K_birads
       = Some PNone
     \/ (exists n, 0 <= n <= 9
           /\ make_extraction (PInt 4) (PStr "unknown") (PStr "unknown") (PInt 7)
               !! K_birads = Some (PInt n))
     \/ (false = true
         /\ exists d v, llm_extract no_credentials "BI-RADS 4" = Ok (PDict d)
               /\ d !! K_birads = Some v /\ none_or_empty v = false
               /\ make_extraction (PInt 4) (PStr "unknown") (PStr "unknown") (PInt 7)
                   !! K_birads = Some v)).
Proof.
  split; [reflexivity|].
  apply (proj1 pipeline_birads_values no_credentials false "BI-RADS 4").
  reflexivity.
Defined.

(** C7, as stated, fails: the pattern reads any digit, and
    the digit 7 goes into the record as it is. *)
Lemma pipeline_birads_seven :
  pipeline no_credentials false "BI-RADS 7"
  = Ok (make_extraction (PInt 7) (PStr "unknown") (PStr "unknown") PNone)
  /\ make_extraction (PInt 7) (PStr "unknown") (PStr "unknown") PNone !! K_birads
     = Some (PInt 7)
  /\ ~ (0 <= 7 <= 6).
Proof. split; [reflexivity|]. split; [reflexivity | lia]. Qed.

(** ** Enrichment that fails *)

Lemma api_key_none_iff w :
  api_key w = Ok None <->
  (getenv_key w = None \/ getenv_key w = Some "")
  /\ (secrets w = SecretsFile None \/ secrets w = SecretsFile (Some "")).
Proof.
  unfold api_key.
  destruct (getenv_key w) as [[|c k]|]; destruct (secrets w) as [|[[|c' k']|]];
    simpl; split; try discriminate; intros H;
    try (split; [by (left + right) | by (left + right)]);
    try done; destruct H as [[H|H] [H'|H']]; discriminate.
Qed.

(** C8, as the code has it.  [llm_extract] returns the empty dict, and the
    record of the run is then the rule-based base record (which always
    exists), in these cases: no credential is configured, that is the
    environment variable is unset or empty and the secrets store is read
    and has no value or an empty one; or a credential is there and the
    body of the [try] raises (the service call, or [json.loads] on a reply
    that is not JSON).  A reply that is a JSON object is returned as it is,
    whether it is on the schema or not. *)
Theorem llm_extract_fail_open :
  (forall w raw_text,
      (api_key w = Ok None
       \/ exists key, api_key w = Ok (Some key)
            /\ (chat w key raw_text = ServiceError
                \/ chat w key raw_text = NotJson)) ->
      llm_extract w raw_text = Ok (PDict ∅)
      /\ pipeline w true raw_text = base_extraction raw_text
      /\ exists base, base_extraction raw_text = Ok base)
  /\ (forall w,
        api_key w = Ok None <->
        (getenv_key w = None \/ getenv_key w = Some "")
        /\ (secrets w = SecretsFile None \/ secrets w = SecretsFile (Some "")))
  /\ (forall w raw_text key d,
        api_key w = Ok (Some key) ->
        chat w key raw_text = Json (PDict d) ->
        llm_extract w raw_text = Ok (PDict d)).
Proof.
  split; [|split; [apply api_key_none_iff|]].
  - intros w raw_text Hfail.
    assert (Hllm : llm_extract w raw_text = Ok (PDict ∅)).
    { unfold llm_extract.
      destruct Hfail as [->|(key & -> & [H|H])]; simpl; [done | |]; by rewrite H. }
    split; [exact Hllm|].
    destruct (base_extraction_ok raw_text) as (b & tf & Hbase & _).
    split; [|by eexists].
    unfold pipeline. rewrite Hllm, Hbase. simpl.
    eapply merge_base_empty. exact Hbase.
  - intros w raw_text key d Hkey Hchat. unfold llm_extract.
    rewrite Hkey. simpl. by rewrite Hchat.
Qed.

Lemma llm_extract_fail_open_witness :
  llm_extract no_credentials "BI-RADS 2" = Ok (PDict ∅)
  /\ pipeline no_credentials true "BI-RADS 2" = base_extraction "BI-RADS 2"
  /\ exists base, base_extraction "BI-RADS 2" = Ok base.
Proof.
  apply (proj1 llm_extract_fail_open). left. reflexivity.
Defined.

(** C8, as stated, fails for a reply off the schema: a JSON
    object with a string for birads and nothing else is returned as it
    is, and the record of the run is no longer the base record. *)
Lemma llm_extract_keeps_reply_off_schema :
  matches_schema (PDict {[ K_birads := PStr "four" ]}) = false
  /\ llm_extract reply_off_schema "BI-RADS 2"
     = Ok (PDict {[ K_birads := PStr "four" ]})
  /\ llm_extract reply_off_schema "BI-RADS 2" <> Ok (PDict ∅)
  /\ pipeline reply_off_schema true "BI-RADS 2"
     = Ok (make_extraction (PStr "four") (PStr "unknown") (PStr "unknown") (PInt 365))
  /\ pipeline reply_off_schema true "BI-RADS 2" <> base_extraction "BI-RADS 2".
Proof.
  split; [vm_compute; reflexivity|]. split; [reflexivity|]. split.
  - intros E.
    apply (f_equal (fun r => match r with
                             | Ok (PDict d) => d !! K_birads
                             | _ => None
                             end)) in E.
    vm_compute in E. discriminate E.
  - split; [vm_compute; reflexivity|]. intros E.
    apply (f_equal (fun r : result (gmap string PyVal) =>
                      match r with Ok m => m !! K_birads | Raise _ => None end)) in E.
    vm_compute in E. discriminate E.
Qed.

(** ** The rendered summary *)

Lemma upper_is_C c :
  (if ascii_dec (upper c) "C" then true else false) =
  (if ascii_dec c "C" then true else false) || (if ascii_dec c "c" then true else false).
Proof.
  revert c.
  assert (H : forall c, Bool.eqb
            (if ascii_dec (upper c) "C" then true else false)
            ((if ascii_dec c "C" then true else false)
             || (if ascii_dec c "c" then true else false)) = true)
    by (apply ascii_forall; vm_compute; reflexivity).
  intros c. apply eqb_prop, H.
Qed.

Lemma upper_is_D c :
  (if ascii_dec (upper c) "D" then true else false) =
  (if ascii_dec c "D" then true else false) || (if ascii_dec c "d" then true else false).
Proof.
  revert c.
  assert (H : forall c, Bool.eqb
            (if ascii_dec (upper c) "D" then true else false)
            ((if ascii_dec c "D" then true else false)
             || (if ascii_dec c "d" then true else false)) = true)
    by (apply ascii_forall; vm_compute; reflexivity).
  intros c. apply eqb_prop, H.
Qed.

Lemma string_dec_one (c x : ascii) :
  (if string_dec (String c EmptyString) (String x EmptyString) then true else false)
  = (if ascii_dec c x then true else false).
Proof.
  destruct (string_dec (String c EmptyString) (String x EmptyString)) as [E|E];
    destruct (ascii_dec c x) as [E'|E']; try done.
  - inversion E. contradiction.
  - subst. contradiction.
Qed.

Lemma string_dec_long (c c' x : ascii) s :
  (if string_dec (String c (String c' s)) (String x EmptyString) then true else false)
  = false.
Proof. by destruct (string_dec (String c (String c' s)) (String x EmptyString)). Qed.

(** The upper case of a string is "C" or "D" for the four strings "C",
    "D", "c" and "d" only. *)
Lemma upper_in_CD s :
  str_in (str_upper s) ["C"; "D"] = str_in s ["C"; "D"; "c"; "d"].
Proof.
  destruct s as [|c [|c' s]].
  - reflexivity.
  - unfold str_in. cbn [str_upper existsb].
    rewrite !string_dec_one, upper_is_C, upper_is_D.
    destruct (ascii_dec c "C"), (ascii_dec c "D"), (ascii_dec c "c"),
      (ascii_dec c "d"); reflexivity.
  - unfold str_in. cbn [str_upper existsb].
    by rewrite !string_dec_long.
Qed.

Lemma str_app_assoc (a b c : string) : (a +:+ b) +:+ c = a +:+ (b +:+ c).
Proof.
  induction a as [|x a IH]; [reflexivity|].
  change (String x ((a +:+ b) +:+ c) = String x (a +:+ (b +:+ c))).
  by rewrite IH.
Qed.

(** The text of the summary, line by line. *)
Lemma patient_summary_text (py_repr : PyVal -> string) (e : gmap string PyVal)
    (language : string) :
  patient_summary py_repr e language =
    "### What this means" +:+ nl
    +:+ "• BI-RADS: **"
    +:+ py_str py_repr (dict_get_default e K_birads (PStr "not specified"))
    +:+ "**" +:+ nl
    +:+ "• Breast density: **"
    +:+ py_str py_repr (dict_get_default e K_density (PStr "unknown"))
    +:+ "**" +:+ nl
    +:+ "• Side: **"
    +:+ py_str py_repr (dict_get_default e K_laterality (PStr "unknown"))
    +:+ "**" +:+ nl
    +:+ "• Key findings: "
    +:+ py_str py_repr
          (if py_truthy (dict_get e K_findings) then dict_get e K_findings
           else PStr "not specified in the report")
    +:+ nl +:+ nl
    +:+ "### Your next steps" +:+ nl
    +:+ "• Recommended action: "
    +:+ py_str py_repr
          (if py_truthy (dict_get e K_recommendation)
           then dict_get e K_recommendation
           else PStr "follow your care team's advice")
    +:+ " "
    +:+ (if is_None (dict_get e K_timeframe) then "as recommended"
         else "in about " +:+ py_str py_repr (dict_get e K_timeframe) +:+ " days")
    +:+ "." +:+ nl
    +:+ (if str_in (str_upper (py_str py_repr
                                 (dict_get_default e K_density (PStr "unknown"))))
                   ["C"; "D"]
         then dense_sentence else "")
    +:+ nl
    +:+ "### Questions to ask your clinician" +:+ nl
    +:+ "• Do I need any additional imaging?" +:+ nl
    +:+ "• When should I schedule it?" +:+ nl
    +:+ "• Is there anything else I should know?" +:+ nl +:+ nl
    +:+ "_This summary is educational and does not replace your clinician’s advice._".
Proof.
  unfold patient_summary, summary_head, summary_fields, dense_line,
    summary_findings, summary_recommendation, summary_when, summary_tail, py_or,
    fallback_findings, fallback_recommendation.
  cbv zeta. rewrite !str_app_assoc. reflexivity.
Qed.

Lemma py_truthy_false_iff v :
  py_truthy v = false <->
  v = PNone \/ v = PBool false \/ v = PInt 0 \/ v = PStr ""
  \/ v = PList [] \/ v = PDict ∅.
Proof.
  split.
  - destruct v as [|b|z|s|l|d]; simpl; intros H.
    + by left.
    + right; left. by destruct b.
    + right; right; left. apply negb_false_iff, Z.eqb_eq in H. by subst.
    + right; right; right; left. by destruct s.
    + right; right; right; right; left. by destruct l.
    + repeat right. f_equal. apply map_to_list_empty_iff.
      by destruct (map_to_list d).
  - intros [->|[->|[->|[->|[->| ->]]]]]; reflexivity.
Qed.

Lemma number_not_CD z :
  str_in (str_upper (NilEmpty.string_of_int (Z.to_int z))) ["C"; "D"] = false.
Proof.
  destruct (Z.to_int z) as [u|u]; destruct u; reflexivity.
Qed.

(** C9, as the code has it.  The summary is the fixed text with the values
    of the record in their places.  The supplemental-screening sentence is
    there exactly when the text of the density, in upper case, is "C" or
    "D": for a string these are "C", "D", "c" and "d"; for [None], a
    boolean or an integer never.  The fallback phrases stand for the
    findings and the recommendation exactly when the value is missing or
    false in Python's sense: [None], [""], [0], [False], an empty list or
    an empty dict. *)
Theorem summary_dense_line_and_fallbacks :
  forall (py_repr : PyVal -> string) (e : gmap string PyVal) (language : string),
    let density := dict_get_default e K_density (PStr "unknown") in
    let findings := dict_get e K_findings in
    let recommendation := dict_get e K_recommendation in
    let dense := str_in (str_upper (py_str py_repr density)) ["C"; "D"] in
    patient_summary py_repr e language =
      "### What this means" +:+ nl
      +:+ "• BI-RADS: **"
      +:+ py_str py_repr (dict_get_default e K_birads (PStr "not specified"))
      +:+ "**" +:+ nl
      +:+ "• Breast density: **" +:+ py_str py_repr density +:+ "**" +:+ nl
      +:+ "• Side: **"
      +:+ py_str py_repr (dict_get_default e K_laterality (PStr "unknown"))
      +:+ "**" +:+ nl
      +:+ "• Key findings: "
      +:+ py_str py_repr
            (if py_truthy findings then findings
             else PStr "not specified in the report")
      +:+ nl +:+ nl
      +:+ "### Your next steps" +:+ nl
      +:+ "• Recommended action: "
      +:+ py_str py_repr
            (if py_truthy recommendation then recommendation
             else PStr "follow your care team's advice")
      +:+ " "
      +:+ (if is_None (dict_get e K_timeframe) then "as recommended"
           else "in about " +:+ py_str py_repr (dict_get e K_timeframe) +:+ " days")
      +:+ "." +:+ nl
      +:+ (if dense then dense_sentence else "")
      +:+ nl
      +:+ "### Questions to ask your clinician" +:+ nl
      +:+ "• Do I need any additional imaging?" +:+ nl
      +:+ "• When should I schedule it?" +:+ nl
      +:+ "• Is there anything else I should know?" +:+ nl +:+ nl
      +:+ "_This summary is educational and does not replace your clinician’s advice._"
    /\ (forall s, density = PStr s -> dense = str_in s ["C"; "D"; "c"; "d"])
    /\ (density = PNone \/ (exists b, density = PBool b)
        \/ (exists z, density = PInt z) -> dense = false)
    /\ dense_sentence <> ""
    /\ (forall v, py_truthy v = false <->
          v = PNone \/ v = PBool false \/ v = PInt 0 \/ v = PStr ""
          \/ v = PList [] \/ v = PDict ∅).
Proof.
  intros py_repr e language density findings recommendation dense.
  split; [apply patient_summary_text|].
  split; [|split; [|split; [discriminate | apply py_truthy_false_iff]]].
  - intros s Hs. unfold dense. rewrite Hs. simpl. apply upper_in_CD.
  - unfold dense. intros [->|[(b & ->)|(z & ->)]]; simpl.
    + reflexivity.
    + by destruct b.
    + apply number_not_CD.
Qed.

Lemma summary_dense_line_and_fallbacks_witness :
  str_in (str_upper (py_str (fun _ => "")
            (dict_get_default
               (make_extraction (PInt 2) (PStr "d") (PStr "left") (PInt 365))
               K_density (PStr "unknown")))) ["C"; "D"]
  = str_in "d" ["C"; "D"; "c"; "d"].
Proof.
  apply (proj1 (proj2 (summary_dense_line_and_fallbacks (fun _ => "")
           (make_extraction (PInt 2) (PStr "d") (PStr "left") (PInt 365)) "en"))).
  reflexivity.
Defined.

(** C9, as stated, fails on a record that an enrichment can give: with
    the integer 0 for the findings, which is neither missing nor empty, the
    fallback phrase is shown, and with the density "c" the sentence on
    dense tissue is added. *)
Lemma summary_zero_findings_lower_density :
  pipeline reply_zero_findings true "BI-RADS 2"
  = Ok (<[K_findings := PInt 0]>
          (make_extraction (PInt 2) (PStr "c") (PStr "unknown") (PInt 365)))
  /\ dict_get (<[K_findings := PInt 0]>
                 (make_extraction (PInt 2) (PStr "c") (PStr "unknown") (PInt 365)))
       K_findings = PInt 0
  /\ summary_findings
       (<[K_findings := PInt 0]>
          (make_extraction (PInt 2) (PStr "c") (PStr "unknown") (PInt 365)))
     = PStr "not specified in the report"
  /\ dict_get (<[K_findings := PInt 0]>
                 (make_extraction (PInt 2) (PStr "c") (PStr "unknown") (PInt 365)))
       K_density = PStr "c"
  /\ dense_line (fun _ => "")
       (<[K_findings := PInt 0]>
          (make_extraction (PInt 2) (PStr "c") (PStr "unknown") (PInt 365)))
     = dense_sentence.
Proof.
  split; [vm_compute; reflexivity|].
  split; [reflexivity|]. split; [reflexivity|]. split; reflexivity.
Qed.

Lemma pipeline_has_birads w use_llm raw_text e :
  pipeline w use_llm raw_text = Ok e -> is_Some (e !! K_birads).
Proof.
  unfold pipeline.
  destruct (base_extraction_ok raw_text) as (b & tf & -> & _). simpl.
  pose proof (proj1 (make_extraction_lookup b (PStr (extract_density raw_text))
                       (PStr (extract_laterality raw_text)) tf)) as Hlook.
  destruct use_llm.
  - destruct (llm_extract w raw_text) as [llm|]; simpl; [|discriminate].
    intros Hm. destruct (merge_birads _ _ _ _ Hlook Hm) as [H|(d & v & _ & _ & _ & H)];
      by eexists.
  - inversion 1; subst e. by eexists.
Qed.

Lemma pipeline_no_llm_birads w raw_text e b :
  pipeline w false raw_text = Ok e -> extract_birads raw_text = Ok b ->
  e !! K_birads = Some b.
Proof.
  unfold pipeline.
  destruct (base_extraction_ok raw_text) as (b' & tf & -> & Hb & _). simpl.
  inversion 1; subst e. rewrite Hb. inversion 1; subst b'.
  apply make_extraction_lookup.
Qed.

(** C10. Every record of the pipeline has the key birads, so the default
    "not specified" of the summary is not used for it; without enrichment
    the value is [None] when no BI-RADS was read, and for a record whose
    birads is [None] the summary opens with the line BI-RADS: **None**.
    The default is only shown for a dict without the key. *)
Theorem pipeline_record_has_birads :
  forall (py_repr : PyVal -> string) w use_llm raw_text e language,
    pipeline w use_llm raw_text = Ok e ->
    is_Some (e !! K_birads)
    /\ dict_get_default e K_birads (PStr "not specified") = dict_get e K_birads
    /\ (use_llm = false -> extract_birads raw_text = Ok PNone ->
        e !! K_birads = Some PNone)
    /\ (e !! K_birads = Some PNone ->
        exists rest,
          patient_summary py_repr e language
          = "### What this means" +:+ nl +:+ "• BI-RADS: **None**" +:+ nl +:+ rest)
    /\ (exists rest,
          patient_summary py_repr (delete K_birads e) language
          = "### What this means" +:+ nl
            +:+ "• BI-RADS: **not specified**" +:+ nl +:+ rest).
Proof.
  intros py_repr w use_llm raw_text e language Hrun.
  destruct (pipeline_has_birads _ _ _ _ Hrun) as [b Hb].
  split; [by exists b|]. split.
  { unfold dict_get_default, dict_get. by rewrite Hb. }
  split.
  { intros -> Hnone. by eapply pipeline_no_llm_birads. }
  split.
  - intros HNone.
    exists (summary_fields py_repr e +:+ dense_line py_repr e +:+ summary_tail).
    unfold patient_summary, summary_head, dict_get_default. rewrite HNone.
    reflexivity.
  - exists (summary_fields py_repr (delete K_birads e)
            +:+ dense_line py_repr (delete K_birads e) +:+ summary_tail).
    unfold patient_summary, summary_head, dict_get_default.
    rewrite lookup_delete_eq. reflexivity.
Qed.

Lemma pipeline_record_has_birads_witness :
  pipeline no_credentials false "Routine screening, no category given."
  = Ok (make_extraction PNone (PStr "unknown") (PStr "unknown") PNone)
  /\ exists rest,
       patient_summary (fun _ => "")
         (make_extraction PNone (PStr "unknown") (PStr "unknown") PNone) "en"
       = "### What this means" +:+ nl +:+ "• BI-RADS: **None**" +:+ nl +:+ rest.
Proof.
  assert (Hrun : pipeline no_credentials false "Routine screening, no category given."
                 = Ok (make_extraction PNone (PStr "unknown") (PStr "unknown") PNone))
    by (vm_compute; reflexivity).
  split; [exact Hrun|].
  apply (proj1 (proj2 (proj2 (proj2 (pipeline_record_has_birads (fun _ => "")
           no_credentials false "Routine screening, no category given."
           (make_extraction PNone (PStr "unknown") (PStr "unknown") PNone) "en" Hrun))))).
  reflexivity.
Defined.


(** ** The follow-up date *)

Lemma month_day_check :
  forallb (month_day_ok false) (map Z.of_nat (List.seq 0 365)) = true
  /\ forallb (month_day_ok true) (map Z.of_nat (List.seq 0 366)) = true.
Proof. split; vm_compute; reflexivity. Qed.

Lemma year_parts m :
  0 <= m < 3652059 ->
  let n400 := m / DI400Y in
  let r1 := m mod DI400Y in
  let n100 := r1 / DI100Y in
  let r2 := r1 mod DI100Y in
  let n4 := r2 / DI4Y in
  let r3 := r2 mod DI4Y in
  let n1 := r3 / 365 in
  let r4 := r3 mod 365 in
  m = 146097 * n400 + 36524 * n100 + 1461 * n4 + 365 * n1 + r4
  /\ 0 <= n400 <= 24 /\ 0 <= n100 <= 4 /\ 0 <= n4 <= 24 /\ 0 <= n1 <= 4
  /\ 0 <= r4 < 365
  /\ (n100 = 4 -> n4 = 0 /\ n1 = 0 /\ r4 = 0)
  /\ (n1 = 4 -> r4 = 0 /\ n4 <= 23).
Proof.
  intros Hm. unfold DI400Y, DI100Y, DI4Y. cbv zeta.
  Z.div_mod_to_equations. lia.
Qed.

Lemma is_leap_true y :
  is_leap y = true <-> y mod 4 = 0 /\ (y mod 100 <> 0 \/ y mod 400 = 0).
Proof.
  unfold is_leap.
  rewrite andb_true_iff, orb_true_iff, negb_true_iff, !Z.eqb_eq, Z.eqb_neq.
  reflexivity.
Qed.

Lemma dby_parts n400 n100 n4 n1 :
  0 <= n400 -> 0 <= n100 <= 3 -> 0 <= n4 <= 24 -> 0 <= n1 <= 3 ->
  days_before_year (400 * n400 + 100 * n100 + 4 * n4 + n1 + 1)
  = 146097 * n400 + 36524 * n100 + 1461 * n4 + 365 * n1.
Proof.
  intros. unfold days_before_year. cbv zeta.
  Z.div_mod_to_equations. lia.
Qed.

Lemma leap_parts n400 n100 n4 n1 :
  0 <= n400 -> 0 <= n100 <= 3 -> 0 <= n4 <= 24 -> 0 <= n1 <= 3 ->
  is_leap (400 * n400 + 100 * n100 + 4 * n4 + n1 + 1)
  = (n1 =? 3) && (negb (n4 =? 24) || (n100 =? 3)).
Proof.
  intros. apply eq_true_iff_eq.
  rewrite is_leap_true, andb_true_iff, orb_true_iff, negb_true_iff, !Z.eqb_eq, Z.eqb_neq.
  Z.div_mod_to_equations. lia.
Qed.

Lemma month_day_spec leap r :
  0 <= r < 365 ->
  let '(m, d) := month_day r leap in
  1 <= m <= 12
  /\ 1 <= d <= (if (m =? 2) && leap then 29 else days_in_month_table m)
  /\ days_before_month_table m + (if (2 <? m) && leap then 1 else 0) + d = r + 1.
Proof.
  intros Hr.
  assert (Hok : month_day_ok leap r = true).
  { destruct month_day_check as [H0 H1].
    assert (Hin : forall k, In r (map Z.of_nat (List.seq 0 k)) <-> (Z.to_nat r < k)%nat).
    { intros k. rewrite in_map_iff. split.
      - intros (x & <- & Hx). apply in_seq in Hx. lia.
      - intros Hk. exists (Z.to_nat r). split; [lia|]. apply in_seq. lia. }
    destruct leap.
    - rewrite forallb_forall in H1. apply H1, Hin. lia.
    - rewrite forallb_forall in H0. apply H0, Hin. lia. }
  unfold month_day_ok in Hok. destruct (month_day r leap) as [m d].
  rewrite !andb_true_iff in Hok.
  destruct Hok as ((((H1 & H2) & H3) & H4) & H5).
  apply Z.leb_le in H1, H2, H3, H4. apply Z.eqb_eq in H5. lia.
Qed.

Lemma fromordinal_general n :
  fromordinal n =
    let m := n - 1 in
    let n400 := m / DI400Y in
    let r1 := m mod DI400Y in
    let n100 := r1 / DI100Y in
    let r2 := r1 mod DI100Y in
    let n4 := r2 / DI4Y in
    let r3 := r2 mod DI4Y in
    let n1 := r3 / 365 in
    let r4 := r3 mod 365 in
    let y := n400 * 400 + 1 + n100 * 100 + n4 * 4 + n1 in
    if (n1 =? 4) || (n100 =? 4) then mkdate (y - 1) 12 31
    else
      let leapyear := (n1 =? 3) && (negb (n4 =? 24) || (n100 =? 3)) in
      mkdate y (fst (month_day r4 leapyear)) (snd (month_day r4 leapyear)).
Proof.
  unfold fromordinal, month_day. cbv zeta.
  destruct ((_ =? 4) || (_ =? 4)); [reflexivity|].
  destruct (_ <? _); reflexivity.
Qed.

Lemma fromordinal_toordinal n :
  1 <= n <= MAXORDINAL ->
  toordinal (fromordinal n) = n /\ valid_date (fromordinal n).
Proof.
  intros Hn. rewrite fromordinal_general. cbv zeta.
  assert (Hm : 0 <= n - 1 < 3652059) by (unfold MAXORDINAL in Hn; lia).
  pose proof (year_parts (n - 1) Hm) as Hparts. cbv zeta in Hparts.
  set (n400 := (n - 1) / DI400Y) in *.
  set (r1 := (n - 1) mod DI400Y) in *.
  set (n100 := r1 / DI100Y) in *.
  set (r2 := r1 mod DI100Y) in *.
  set (n4 := r2 / DI4Y) in *.
  set (r3 := r2 mod DI4Y) in *.
  set (n1 := r3 / 365) in *.
  set (r4 := r3 mod 365) in *.
  clearbody n400 n100 n4 n1 r4. clear r1 r2 r3.
  destruct Hparts as (Hsum & H400 & H100 & H4 & H1 & Hr4 & Hc & Hy).
  destruct ((n1 =? 4) || (n100 =? 4)) eqn:Hspecial.
  - (* the last day of a leap year *)
    apply orb_true_iff in Hspecial. rewrite !Z.eqb_eq in Hspecial.
    assert (Hform : exists a b c,
      n400 * 400 + 1 + n100 * 100 + n4 * 4 + n1 - 1 = 400 * n400 + 100 * a + 4 * b + c + 1
      /\ 0 <= a <= 3 /\ 0 <= b <= 24 /\ c = 3 /\ (b <> 24 \/ a = 3)
      /\ n = 146097 * n400 + 36524 * a + 1461 * b + 365 * c + 366).
    { destruct Hspecial as [E|E].
      - destruct (Z.eq_dec n100 4) as [E4|E4].
        + destruct (Hc E4) as (? & ? & ?). exists 3, 24, 3. lia.
        + destruct (Hy E) as (? & ?). exists n100, n4, 3. lia.
      - destruct (Hc E) as (? & ? & ?). exists 3, 24, 3. lia. }
    destruct Hform as (a & b & c & -> & Ha & Hb & -> & Hab & Hnn).
    unfold toordinal, valid_date, ymd2ord, days_before_month, days_in_month.
    cbn [year month day].
    rewrite dby_parts, leap_parts by lia.
    assert (Hl : (3 =? 3) && (negb (b =? 24) || (a =? 3)) = true).
    { apply andb_true_iff. split; [reflexivity|].
      apply orb_true_iff. rewrite negb_true_iff, Z.eqb_neq, Z.eqb_eq. lia. }
    rewrite Hl.
    change (days_before_month_table 12) with 334.
    change (days_in_month_table 12) with 31.
    change ((2 <? 12) && true) with true.
    change ((12 =? 2) && true) with false.
    cbv iota. lia.
  - apply orb_false_iff in Hspecial. rewrite !Z.eqb_neq in Hspecial.
    set (leap := (n1 =? 3) && (negb (n4 =? 24) || (n100 =? 3))).
    pose proof (month_day_spec leap r4 Hr4) as Hmd.
    destruct (month_day r4 leap) as [mo d]. cbn [fst snd].
    replace (n400 * 400 + 1 + n100 * 100 + n4 * 4 + n1)
      with (400 * n400 + 100 * n100 + 4 * n4 + n1 + 1) by lia.
    unfold toordinal, valid_date, ymd2ord, days_before_month, days_in_month.
    cbn [year month day].
    rewrite dby_parts, leap_parts by lia. fold leap.
    lia.
Qed.

Lemma toordinal_positive t : valid_date t -> 1 <= toordinal t.
Proof.
  unfold valid_date, toordinal, ymd2ord, days_before_month, days_before_year.
  destruct t as [y m d]. cbn [year month day]. cbv zeta.
  intros (Hy & Hm & Hd).
  assert (0 <= days_before_month_table m).
  { assert (Hc : m = 1 \/ m = 2 \/ m = 3 \/ m = 4 \/ m = 5 \/ m = 6 \/ m = 7
                 \/ m = 8 \/ m = 9 \/ m = 10 \/ m = 11 \/ m = 12) by lia.
    destruct Hc as [->|[->|[->|[->|[->|[->|[->|[->|[->|[->|[->| ->]]]]]]]]]]];
      done. }
  destruct ((2 <? m) && is_leap y); Z.div_mod_to_equations; lia.
Qed.

Lemma follow_up_int e today tf :
  dict_get e K_timeframe = PInt tf ->
  follow_up e today =
    if 0 <=? tf then
      let* delta := timedelta_days tf in
      let* due := date_add today delta in
      Ok (Some due)
    else Ok None.
Proof. intros H. unfold follow_up. rewrite H. reflexivity. Qed.

(** C6, as the code has it.  Without a timeframe the planner gives no
    date; with a timeframe of at least 0 it gives the date that many days
    after today, as long as that date is not after 9999-12-31, the last
    date of the library; with a negative timeframe it gives no date.  So
    180 days after 2024-01-01 is 2024-06-29. *)
Theorem follow_up_target_date :
  (forall e today, dict_get e K_timeframe = PNone -> follow_up e today = Ok None)
  /\ (forall e today tf,
        dict_get e K_timeframe = PInt tf ->
        0 <= tf -> valid_date today -> toordinal today + tf <= MAXORDINAL ->
        exists due,
          follow_up e today = Ok (Some due)
          /\ due = fromordinal (toordinal today + tf)
          /\ toordinal due = toordinal today + tf
          /\ valid_date due)
  /\ schedule (PInt 180) (mkdate 2024 1 1) = Ok (Some (mkdate 2024 6 29))
  /\ (forall today, schedule PNone today = Ok None)
  /\ (forall e today tf,
        dict_get e K_timeframe = PInt tf -> tf < 0 -> follow_up e today = Ok None).
Proof.
  split; [|split; [|split; [|split]]].
  - intros e today H. unfold follow_up. by rewrite H.
  - intros e today tf H Htf Hvalid Hmax.
    pose proof (toordinal_positive _ Hvalid) as Hpos.
    destruct (fromordinal_toordinal (toordinal today + tf)) as [Hord Hv]; [lia|].
    exists (fromordinal (toordinal today + tf)).
    split; [|done].
    rewrite (follow_up_int _ _ _ H).
    replace (0 <=? tf) with true by (symmetry; apply Z.leb_le; lia).
    unfold timedelta_days.
    replace (Z.abs tf <=? 999999999) with true
      by (symmetry; apply Z.leb_le; unfold MAXORDINAL in Hmax; lia).
    cbn [bind]. unfold date_add.
    replace (0 <? toordinal today + tf) with true by (symmetry; apply Z.ltb_lt; lia).
    replace (toordinal today + tf <=? MAXORDINAL) with true
      by (symmetry; apply Z.leb_le; lia).
    reflexivity.
  - vm_compute. reflexivity.
  - intros today. reflexivity.
  - intros e today tf H Htf. rewrite (follow_up_int _ _ _ H).
    by replace (0 <=? tf) with false by (symmetry; apply Z.leb_gt; lia).
Qed.

Lemma follow_up_target_date_witness :
  exists due,
    follow_up (make_extraction (PInt 3) (PStr "B") (PStr "left") (PInt 180))
              (mkdate 2024 1 1) = Ok (Some due)
    /\ due = fromordinal (toordinal (mkdate 2024 1 1) + 180)
    /\ toordinal due = toordinal (mkdate 2024 1 1) + 180
    /\ valid_date due.
Proof.
  apply (proj1 (proj2 follow_up_target_date)).
  - reflexivity.
  - lia.
  - unfold valid_date. cbn [year month day]. vm_compute. intuition discriminate.
  - vm_compute. discriminate.
Defined.

(** C6, as stated, fails for a timeframe that leads past the
    last date of the library: the addition raises [OverflowError]. *)
Lemma follow_up_overflow :
  0 <= 3000000
  /\ valid_date (mkdate 2024 1 1)
  /\ schedule (PInt 3000000) (mkdate 2024 1 1) = Raise OverflowError.
Proof.
  split; [lia|]. split.
  - unfold valid_date. cbn [year month day]. vm_compute. intuition discriminate.
  - vm_compute. reflexivity.
Qed.

(** * Further properties *)

(** ** More on the enrichment merge *)

Lemma overridden_some d k b : is_Some (overridden d k (Some b)).
Proof.
  unfold overridden. destruct (d !! k) as [v|]; [|by eexists].
  destruct (none_or_empty v); by eexists.
Qed.

(** The override pass on any reply: a record with the same keys whose
    values are the base's or the reply's. *)
Lemma override_pass_any (base : gmap string PyVal) llm e1 :
  override_loop llm (dict_keys base) base = Ok e1 ->
  forall k,
    e1 !! k = base !! k
    \/ exists b v, base !! k = Some b /\ e1 !! k = Some v
                /\ none_or_empty v = false.
Proof.
  intros Hloop k.
  destruct llm as [| | | | |d];
    try (left; apply override_loop_not_dict in Hloop as ->; [done | discriminate]).
  destruct (override_pass_dict base d) as (e2 & Hloop2 & Hlook).
  rewrite Hloop in Hloop2. inversion Hloop2; subst e2.
  rewrite Hlook. destruct (base !! k) as [b|]; [|by left].
  unfold overridden. destruct (d !! k) as [v|]; [|by left].
  destruct (none_or_empty v) eqn:Hv; [by left|].
  right. by exists b, v.
Qed.

(** The two ways the merge can end. *)
Lemma merge_inv (base : gmap string PyVal) llm e :
  merge base llm = Ok e ->
  exists e1,
    override_loop llm (dict_keys base) base = Ok e1
    /\ ((is_None (dict_get e1 K_timeframe) = false /\ e = e1)
        \/ (dict_get e1 K_timeframe = PNone
            /\ exists tf, timeframe_from_birads (dict_get e1 K_birads) = Ok tf
                          /\ e = <[K_timeframe := tf]> e1)).
Proof.
  unfold merge.
  destruct (override_loop llm (dict_keys base) base) as [e1|]; simpl; [|discriminate].
  intros H. exists e1. split; [done|].
  destruct (is_None (dict_get e1 K_timeframe)) eqn:Hn.
  - right. split; [by destruct (dict_get e1 K_timeframe)|].
    destruct (timeframe_from_birads (dict_get e1 K_birads)) as [tf|]; simpl in H;
      [|discriminate].
    exists tf. split; [done|]. by inversion H.
  - left. split; [done|]. by inversion H.
Qed.

(** X1. The merge keeps the keys of the base record: the merged record has
    the keys of the base and the timeframe key, whatever the enrichment
    returned. *)
Theorem merge_keeps_keys :
  forall (base : gmap string PyVal) llm e,
    merge base llm = Ok e ->
    dom e = dom base ∪ {[ K_timeframe ]}.
Proof.
  intros base llm e Hm.
  destruct (merge_inv _ _ _ Hm) as (e1 & Hloop & Hend).
  assert (Hdom : dom e1 = dom base).
  { apply set_eq. intros k. rewrite !elem_of_dom.
    destruct (override_pass_any _ _ _ Hloop k) as [->|(b & v & -> & -> & _)];
      [done|]. split; by eexists. }
  destruct Hend as [[Hn ->]|(_ & tf & _ & ->)].
  - rewrite Hdom. apply set_eq. intros k.
    rewrite elem_of_union, elem_of_singleton. split; [by left|].
    intros [H| ->]; [done|].
    rewrite <- Hdom. apply elem_of_dom. unfold dict_get in Hn.
    destruct (e1 !! K_timeframe); [by eexists | done].
  - rewrite dom_insert_L, Hdom. set_solver.
Qed.

(** The example run of the merge: the rules find the density and the side
    but no BI-RADS; the enrichment brings the BI-RADS 5, blanks for the
    density and the side, and a key the record does not have. *)
Lemma example_base_run :
  base_extraction "scattered fibroglandular densities, left breast"
  = Ok example_base.
Proof. vm_compute. reflexivity. Qed.

Lemma merge_example :
  merge example_base (PDict example_reply) = Ok example_merged.
Proof. vm_compute. reflexivity. Qed.

Lemma merge_keeps_keys_witness :
  base_extraction "scattered fibroglandular densities, left breast"
  = Ok example_base
  /\ example_reply !! "impression" = Some (PStr "stable")
  /\ merge example_base (PDict example_reply) = Ok example_merged
  /\ dom example_merged = dom example_base ∪ {[ K_timeframe ]}.
Proof.
  split; [exact example_base_run|]. split; [reflexivity|].
  split; [exact merge_example|].
  apply (merge_keeps_keys example_base (PDict example_reply)).
  exact merge_example.
Defined.

(** The table gives [None] or a number of days from 0 to 365. *)
Lemma table_get_range z :
  table_get z = PNone \/ exists days, table_get z = PInt days /\ 0 <= days <= 365.
Proof.
  destruct (decide (z < 0 \/ 6 < z)) as [H|H].
  - left. by apply table_get_outside.
  - right.
    assert (Hz : z = 0 \/ z = 1 \/ z = 2 \/ z = 3 \/ z = 4 \/ z = 5 \/ z = 6) by lia.
    destruct Hz as [->|[->|[->|[->|[->|[->| ->]]]]]]; eexists; (split; [reflexivity|lia]).
Qed.

Lemma timeframe_result b tf :
  timeframe_from_birads b = Ok tf ->
  tf = PNone \/ exists days, tf = PInt days /\ 0 <= days <= 365.
Proof.
  destruct b as [|t|z|s|l|d]; simpl; try discriminate; inversion 1; subst;
    try (by left).
  - destruct (table_get_range (if t then 1 else 0)) as [->|(days & -> & H')];
      [by left | right; by exists days].
  - destruct (table_get_range z) as [->|(days & -> & H')];
      [by left | right; by exists days].
Qed.

Lemma merge_blank_from_base (base : gmap string PyVal) llm e k :
  merge base llm = Ok e ->
  none_or_empty (dict_get e k) = true ->
  dict_get e k = dict_get base k.
Proof.
  intros Hm Hblank.
  destruct (merge_inv _ _ _ Hm) as (e1 & Hloop & Hend).
  assert (H1 : forall k, none_or_empty (dict_get e1 k) = true ->
                         dict_get e1 k = dict_get base k).
  { intros k0 Hb. unfold dict_get in *.
    destruct (override_pass_any _ _ _ Hloop k0) as [->|(b & v & Hbk & Hv & Hne)];
      [done|].
    rewrite Hv in Hb. simpl in Hb. congruence. }
  destruct Hend as [[_ ->]|(Hnone & tf & Htf & ->)]; [by apply H1|].
  destruct (decide (k = K_timeframe)) as [->|Hne].
  - specialize (H1 K_timeframe). rewrite Hnone in H1. rewrite <- H1 by done.
    unfold dict_get in Hblank |- *. rewrite lookup_insert_eq in Hblank |- *.
    simpl in *.
    destruct (timeframe_result _ _ Htf) as [->|(days & -> & _)]; [done|discriminate].
  - unfold dict_get in Hblank |- *. rewrite lookup_insert_ne in Hblank |- * by done.
    by apply H1.
Qed.

(** X2. Enrichment never blanks a field.  A field of the merged record
    that is [None] or [""] has the value it had in the base record; when
    the base record has the key, it has it with this very value; and a
    field that the base record has filled is filled in the merged record. *)
Theorem merge_never_blanks :
  forall (base : gmap string PyVal) llm e k,
    merge base llm = Ok e ->
    (none_or_empty (dict_get e k) = true -> dict_get e k = dict_get base k)
    /\ (forall v, e !! k = Some v -> none_or_empty v = true ->
          is_Some (base !! k) -> base !! k = Some v)
    /\ (forall b, base !! k = Some b -> none_or_empty b = false ->
          exists v, e !! k = Some v /\ none_or_empty v = false).
Proof.
  intros base llm e k Hm.
  pose proof (merge_blank_from_base base llm e k Hm) as H1.
  split; [exact H1|]. split.
  - intros v Hv Hblank [b Hb]. unfold dict_get in H1.
    rewrite Hv, Hb in H1. simpl in H1. rewrite Hb. f_equal. symmetry.
    by apply H1.
  - intros b Hb Hfilled.
    assert (He : is_Some (e !! k)).
    { destruct (merge_inv _ _ _ Hm) as (e1 & Hloop & Hend).
      assert (He1 : is_Some (e1 !! k)).
      { destruct (override_pass_any _ _ _ Hloop k) as [->|(b' & v & _ & -> & _)];
          by eexists. }
      destruct Hend as [[_ ->]|(_ & tf & _ & ->)]; [exact He1|].
      destruct (decide (k = K_timeframe)) as [->|Hne].
      - rewrite lookup_insert_eq. by eexists.
      - by rewrite lookup_insert_ne. }
    destruct He as [v Hv]. exists v. split; [exact Hv|].
    destruct (none_or_empty v) eqn:Hblank; [|reflexivity].
    unfold dict_get in H1. rewrite Hv, Hb in H1. simpl in H1.
    rewrite (H1 Hblank) in Hblank. congruence.
Qed.

Lemma merge_never_blanks_witness :
  example_reply !! K_density = Some (PStr "")
  /\ example_base !! K_density = Some (PStr "B")
  /\ exists v, example_merged !! K_density = Some v /\ none_or_empty v = false.
Proof.
  split; [reflexivity|]. split; [reflexivity|].
  apply (proj2 (proj2 (merge_never_blanks example_base (PDict example_reply)
                         example_merged K_density merge_example)) (PStr "B")).
  - reflexivity.
  - reflexivity.
Defined.

(** X3. The timeframe is not lost: when the merged record has no timeframe,
    the table has no entry for its BI-RADS either; so a merged record with
    a BI-RADS from 0 to 6 always has its timeframe set. *)
Theorem merge_timeframe_not_lost :
  forall (base : gmap string PyVal) llm e,
    merge base llm = Ok e ->
    (dict_get e K_timeframe = PNone ->
     timeframe_from_birads (dict_get e K_birads) = Ok PNone)
    /\ (forall n, e !! K_birads = Some (PInt n) -> 0 <= n <= 6 ->
        exists v, e !! K_timeframe = Some v /\ v <> PNone).
Proof.
  intros base llm e Hm.
  assert (H1 : dict_get e K_timeframe = PNone ->
               timeframe_from_birads (dict_get e K_birads) = Ok PNone).
  { destruct (merge_inv _ _ _ Hm) as (e1 & Hloop & [[Hn ->]|(Hnone & tf & Htf & ->)]).
    - intros H. by rewrite H in Hn.
    - unfold dict_get at 1. rewrite lookup_insert_eq. simpl. intros ->.
      unfold dict_get. rewrite lookup_insert_ne by done. exact Htf. }
  split; [exact H1|].
  intros n Hb Hn.
  destruct (e !! K_timeframe) as [v|] eqn:Hv.
  - exists v. split; [done|]. intros ->.
    unfold dict_get in H1. rewrite Hv, Hb in H1. specialize (H1 eq_refl).
    simpl in H1.
    assert (Hz : n = 0 \/ n = 1 \/ n = 2 \/ n = 3 \/ n = 4 \/ n = 5 \/ n = 6) by lia.
    destruct Hz as [->|[->|[->|[->|[->|[->| ->]]]]]]; discriminate H1.
  - exfalso. unfold dict_get in H1. rewrite Hv, Hb in H1. specialize (H1 eq_refl).
    simpl in H1.
    assert (Hz : n = 0 \/ n = 1 \/ n = 2 \/ n = 3 \/ n = 4 \/ n = 5 \/ n = 6) by lia.
    destruct Hz as [->|[->|[->|[->|[->|[->| ->]]]]]]; discriminate H1.
Qed.

Lemma merge_timeframe_not_lost_witness :
  example_base !! K_timeframe = Some PNone
  /\ example_reply !! K_birads = Some (PInt 5)
  /\ exists v, example_merged !! K_timeframe = Some v /\ v <> PNone.
Proof.
  split; [reflexivity|]. split; [reflexivity|].
  apply (proj2 (merge_timeframe_not_lost example_base (PDict example_reply)
                  example_merged merge_example) 5).
  - reflexivity.
  - lia.
Defined.

(** X4. Merging the same enrichment dict a second time changes nothing,
    for a base record that has the timeframe key. *)
Theorem merge_idempotent :
  forall (base d e : gmap string PyVal),
    is_Some (base !! K_timeframe) ->
    merge base (PDict d) = Ok e ->
    merge e (PDict d) = Ok e.
Proof.
  intros base d e [b0 Hb0] Hm.
  destruct (merge_inv _ _ _ Hm) as (e1 & Hloop & Hend).
  destruct (override_pass_dict base d) as (e1' & Hloop' & Hlook1).
  rewrite Hloop in Hloop'. inversion Hloop'; subst e1'. clear Hloop'.
  assert (HA : forall k x, e1 !! k = Some x -> overridden d k (Some x) = Some x).
  { intros k x. rewrite Hlook1. destruct (base !! k) as [b|]; [|discriminate].
    unfold overridden. destruct (d !! k) as [v|]; [|done].
    by destruct (none_or_empty v). }
  destruct (override_pass_dict e d) as (e2 & Hloop2 & Hlook2).
  assert (He2 : e2 = e).
  { apply map_eq. intros k. rewrite Hlook2.
    destruct Hend as [[_ ->]|(Hnone & tf & Htf & ->)].
    - destruct (e1 !! k) as [x|] eqn:Hx; [by apply HA | done].
    - destruct (decide (k = K_timeframe)) as [->|Hne].
      + rewrite lookup_insert_eq.
        unfold dict_get in Hnone. rewrite Hlook1, Hb0 in Hnone.
        unfold overridden in *. destruct (d !! K_timeframe) as [v|]; [|done].
        destruct (none_or_empty v) eqn:Hv; [done|].
        simpl in Hnone. subst v. discriminate.
      + rewrite lookup_insert_ne by done.
        destruct (e1 !! k) as [x|] eqn:Hx; [by apply HA | done]. }
  subst e2. unfold merge. rewrite Hloop2. simpl.
  destruct Hend as [[Hn ->]|(Hnone & tf & Htf & ->)].
  - by rewrite Hn.
  - unfold dict_get at 1. rewrite lookup_insert_eq. simpl.
    destruct (is_None tf) eqn:Ht; [|done].
    unfold dict_get. rewrite lookup_insert_ne by done.
    fold (dict_get e1 K_birads). rewrite Htf. simpl.
    by rewrite insert_insert_eq.
Qed.

Lemma merge_idempotent_witness :
  merge example_base (PDict example_reply) = Ok example_merged
  /\ merge example_merged (PDict example_reply) = Ok example_merged.
Proof.
  split; [exact merge_example|].
  apply (merge_idempotent example_base).
  - exists PNone. reflexivity.
  - exact merge_example.
Defined.

(** ** A reply that is JSON but not an object *)

Lemma override_key_not_dict_cases llm (e : gmap string PyVal) k :
  (forall d, llm <> PDict d) ->
  override_key llm e k = Ok e \/ override_key llm e k = Raise TypeError.
Proof.
  intros Hllm. unfold override_key.
  destruct llm as [| | |s|l|d]; simpl; try (by right).
  - destruct (is_infix k s); [by right | by left].
  - destruct (existsb (eq_str k) l); [by right | by left].
  - by destruct (Hllm d).
Qed.

Lemma override_loop_not_dict_cases llm keys (e : gmap string PyVal) :
  (forall d, llm <> PDict d) ->
  override_loop llm keys e = Ok e \/ override_loop llm keys e = Raise TypeError.
Proof.
  intros Hllm. induction keys as [|k keys IH]; simpl; [by left|].
  destruct (override_key_not_dict_cases llm e k Hllm) as [-> | ->]; simpl;
    [exact IH | by right].
Qed.

Lemma override_loop_scalar llm keys (e : gmap string PyVal) :
  (llm = PNone \/ (exists b, llm = PBool b) \/ (exists z, llm = PInt z)) ->
  keys <> [] ->
  override_loop llm keys e = Raise TypeError.
Proof.
  intros Hllm Hk. destruct keys as [|k keys]; [done|]. simpl.
  by destruct Hllm as [->|[(b & ->)|(z & ->)]].
Qed.

Lemma merge_unchanged_pass (base : gmap string PyVal) llm tf :
  override_loop llm (dict_keys base) base = Ok base ->
  base !! K_timeframe = Some tf ->
  (tf = PNone -> timeframe_from_birads (dict_get base K_birads) = Ok PNone) ->
  merge base llm = Ok base.
Proof.
  intros Hloop Htf Hnone. unfold merge. rewrite Hloop. simpl.
  unfold dict_get at 1. rewrite Htf. simpl.
  destruct tf; simpl; try done.
  rewrite Hnone by done. simpl. by rewrite insert_id.
Qed.

(** X5. The merge is not protected against a reply that is JSON but not
    an object.  With enrichment on, a credential and such a reply, the run
    raises [TypeError] or gives the base record; for [null], a boolean or
    an integer it always raises. *)
Theorem pipeline_reply_not_an_object :
  forall w raw_text key v,
    api_key w = Ok (Some key) ->
    chat w key raw_text = Json v ->
    (forall d, v <> PDict d) ->
    (pipeline w true raw_text = Raise TypeError
     \/ pipeline w true raw_text = base_extraction raw_text)
    /\ ((v = PNone \/ (exists b, v = PBool b) \/ (exists z, v = PInt z)) ->
        pipeline w true raw_text = Raise TypeError).
Proof.
  intros w raw_text key v Hkey Hchat Hv.
  assert (Hllm : llm_extract w raw_text = Ok v).
  { unfold llm_extract. rewrite Hkey. simpl. by rewrite Hchat. }
  unfold pipeline. rewrite Hllm.
  destruct (base_extraction_ok raw_text) as (b & tf & Hbase & _ & Htf & _).
  rewrite Hbase. simpl.
  set (base := make_extraction b (PStr (extract_density raw_text))
                 (PStr (extract_laterality raw_text)) tf).
  split.
  - destruct (override_loop_not_dict_cases v (dict_keys base) base Hv) as [H|H].
    + right. apply (merge_unchanged_pass _ _ tf); [done | apply make_extraction_lookup |].
      intros ->. unfold dict_get, base.
      by rewrite (proj1 (make_extraction_lookup _ _ _ _)).
    + left. unfold merge. by rewrite H.
  - intros Hscalar. unfold merge.
    rewrite (override_loop_scalar v (dict_keys base) base Hscalar); [done|].
    intros Hnil.
    assert (Hin : K_birads ∈ dict_keys base).
    { apply elem_of_dict_keys. exists b. apply make_extraction_lookup. }
    rewrite Hnil in Hin. by apply elem_of_nil in Hin.
Qed.

Lemma pipeline_reply_not_an_object_witness :
  pipeline {| getenv_key := Some "sk-test"; secrets := NoSecretsFile;
              chat := fun _ _ => Json PNone |} true "BI-RADS 2"
  = Raise TypeError.
Proof.
  apply (proj2 (pipeline_reply_not_an_object
           {| getenv_key := Some "sk-test"; secrets := NoSecretsFile;
              chat := fun _ _ => Json PNone |} "BI-RADS 2" "sk-test" PNone
           eq_refl eq_refl ltac:(discriminate))).
  by left.
Defined.

(** ** A run without a secrets file *)

(** X16. The secrets store is read before the guarded part of the
    enrichment.  With the environment variable unset or empty and no
    secrets file, [llm_extract] raises and so does the run with enrichment
    on, whatever the report; with the variable set the store is not read. *)
Theorem llm_extract_without_secrets_file :
  (forall w raw_text,
      getenv_key w = None \/ getenv_key w = Some "" ->
      secrets w = NoSecretsFile ->
      llm_extract w raw_text = Raise FileNotFoundError
      /\ pipeline w true raw_text = Raise FileNotFoundError
      /\ exists e, pipeline w false raw_text = Ok e)
  /\ (forall w c k, getenv_key w = Some (String c k) ->
        api_key w = Ok (Some (String c k))).
Proof.
  split.
  - intros w raw_text Henv Hsec.
    assert (Hkey : api_key w = Raise FileNotFoundError).
    { unfold api_key. rewrite Hsec. by destruct Henv as [-> | ->]. }
    assert (Hl : llm_extract w raw_text = Raise FileNotFoundError).
    { unfold llm_extract. rewrite Hkey. reflexivity. }
    split; [exact Hl|].
    unfold pipeline.
    destruct (base_extraction_ok raw_text) as (b & tf & -> & _).
    cbn [bind]. rewrite Hl. split; [reflexivity|]. by eexists.
  - intros w c k Henv. unfold api_key. rewrite Henv. reflexivity.
Qed.

Lemma llm_extract_without_secrets_file_witness :
  llm_extract {| getenv_key := None; secrets := NoSecretsFile;
                 chat := fun _ _ => ServiceError |} "BI-RADS 2"
  = Raise FileNotFoundError
  /\ pipeline {| getenv_key := None; secrets := NoSecretsFile;
                 chat := fun _ _ => ServiceError |} true "BI-RADS 2"
     = Raise FileNotFoundError
  /\ exists e, pipeline {| getenv_key := None; secrets := NoSecretsFile;
                           chat := fun _ _ => ServiceError |} false "BI-RADS 2"
               = Ok e.
Proof.
  apply (proj1 llm_extract_without_secrets_file).
  - left. reflexivity.
  - reflexivity.
Defined.

(** ** A run without enrichment *)

Lemma follow_up_in_range e today days :
  dict_get e K_timeframe = PInt days ->
  0 <= days -> valid_date today -> toordinal today + days <= MAXORDINAL ->
  follow_up e today = Ok (Some (fromordinal (toordinal today + days))).
Proof.
  intros H Hd Hvalid Hmax.
  pose proof (toordinal_positive _ Hvalid) as Hpos.
  rewrite (follow_up_int _ _ _ H).
  replace (0 <=? days) with true by (symmetry; apply Z.leb_le; lia).
  unfold timedelta_days.
  replace (Z.abs days <=? 999999999) with true
    by (symmetry; apply Z.leb_le; unfold MAXORDINAL in Hmax; lia).
  cbn [bind]. unfold date_add.
  replace (0 <? toordinal today + days) with true by (symmetry; apply Z.ltb_lt; lia).
  replace (toordinal today + days <=? MAXORDINAL) with true
    by (symmetry; apply Z.leb_le; lia).
  reflexivity.
Qed.

(** X6. Without enrichment the planner never raises for a today up to one
    year before the last date of the library: either the record has no
    timeframe and no date is planned, or the timeframe is between 0 and 365
    days and the planned date is that many days after today. *)
Theorem baseline_follow_up :
  forall w raw_text today,
    valid_date today -> toordinal today + 365 <= MAXORDINAL ->
    exists e,
      pipeline w false raw_text = Ok e
      /\ ((dict_get e K_timeframe = PNone /\ follow_up e today = Ok None)
          \/ exists days due,
               dict_get e K_timeframe = PInt days /\ 0 <= days <= 365
               /\ follow_up e today = Ok (Some due)
               /\ toordinal due = toordinal today + days
               /\ valid_date due).
Proof.
  intros w raw_text today Hvalid Hmax. unfold pipeline.
  destruct (base_extraction_ok raw_text) as (b & tf & -> & _ & Htf & _). simpl.
  eexists. split; [reflexivity|].
  set (e := make_extraction b (PStr (extract_density raw_text))
              (PStr (extract_laterality raw_text)) tf).
  assert (Hget : dict_get e K_timeframe = tf).
  { unfold dict_get, e.
    by rewrite (proj2 (proj2 (proj2 (proj2 (proj2 (make_extraction_lookup _ _ _ _)))))). }
  destruct (timeframe_result _ _ Htf) as [->|(days & -> & Hdays)].
  - left. split; [done|]. unfold follow_up. by rewrite Hget.
  - right. exists days, (fromordinal (toordinal today + days)).
    pose proof (toordinal_positive _ Hvalid) as Hpos.
    destruct (fromordinal_toordinal (toordinal today + days)) as [Hord Hv]; [lia|].
    split; [done|]. split; [done|]. split; [|done].
    apply follow_up_in_range; [done | lia | done | lia].
Qed.

Lemma baseline_follow_up_witness :
  exists e,
    pipeline no_credentials false "BI-RADS 3" = Ok e
    /\ ((dict_get e K_timeframe = PNone
         /\ follow_up e (mkdate 2024 1 1) = Ok None)
        \/ exists days due,
             dict_get e K_timeframe = PInt days /\ 0 <= days <= 365
             /\ follow_up e (mkdate 2024 1 1) = Ok (Some due)
             /\ toordinal due = toordinal (mkdate 2024 1 1) + days
             /\ valid_date due).
Proof.
  apply baseline_follow_up.
  - unfold valid_date. cbn [year month day]. vm_compute. intuition discriminate.
  - vm_compute. discriminate.
Defined.

Lemma first_code_values ps text o :
  first_code ps text o = o \/ In (first_code ps text o) (map snd ps).
Proof.
  induction ps as [|[pat c] ps IH]; simpl; [by left|].
  destruct (found (re_search pat text)); [right; by left|].
  destruct IH as [IH|IH]; [by left | right; by right].
Qed.

Lemma extract_density_values text :
  extract_density text = "D" \/ extract_density text = "C"
  \/ extract_density text = "B" \/ extract_density text = "A"
  \/ extract_density text = "unknown".
Proof.
  unfold extract_density.
  destruct (first_code_values density_patterns text "unknown") as [H|H].
  - by repeat right.
  - simpl in H. destruct H as [H|[H|[H|[H|[]]]]]; symmetry in H; tauto.
Qed.

Lemma extract_density_upper text :
  str_in (str_upper (extract_density text)) ["C"; "D"]
  = str_in (extract_density text) ["C"; "D"].
Proof.
  destruct (extract_density_values text) as [E|[E|[E|[E|E]]]]; rewrite E;
    reflexivity.
Qed.

(** X7. The summary of a run without enrichment, in full: the BI-RADS as
    the rules read it ([None] when they found none), the density and the
    side of the rules, the two fallback phrases for the findings and the
    recommendation, the timing of the table, and the sentence on dense
    tissue exactly when the rule-based density is C or D. *)
Theorem baseline_summary :
  forall (py_repr : PyVal -> string) w raw_text e language,
    pipeline w false raw_text = Ok e ->
    exists birads tf,
      extract_birads raw_text = Ok birads
      /\ timeframe_from_birads birads = Ok tf
      /\ patient_summary py_repr e language =
           "### What this means" +:+ nl
           +:+ "• BI-RADS: **" +:+ py_str py_repr birads +:+ "**" +:+ nl
           +:+ "• Breast density: **" +:+ extract_density raw_text +:+ "**" +:+ nl
           +:+ "• Side: **" +:+ extract_laterality raw_text +:+ "**" +:+ nl
           +:+ "• Key findings: not specified in the report" +:+ nl +:+ nl
           +:+ "### Your next steps" +:+ nl
           +:+ "• Recommended action: follow your care team's advice "
           +:+ (if is_None tf then "as recommended"
                else "in about " +:+ py_str py_repr tf +:+ " days")
           +:+ "." +:+ nl
           +:+ (if str_in (extract_density raw_text) ["C"; "D"]
                then dense_sentence else "")
           +:+ nl
           +:+ "### Questions to ask your clinician" +:+ nl
           +:+ "• Do I need any additional imaging?" +:+ nl
           +:+ "• When should I schedule it?" +:+ nl
           +:+ "• Is there anything else I should know?" +:+ nl +:+ nl
           +:+ "_This summary is educational and does not replace your clinician’s advice._".
Proof.
  intros py_repr w raw_text e language. unfold pipeline.
  destruct (base_extraction_ok raw_text) as (b & tf & -> & Hb & Htf & _).
  cbn [bind]. inversion 1; subst e. clear H.
  exists b, tf. split; [exact Hb|]. split; [exact Htf|].
  rewrite patient_summary_text.
  pose proof (make_extraction_lookup b (PStr (extract_density raw_text))
                (PStr (extract_laterality raw_text)) tf)
    as (Hlb & Hld & Hll & Hlf & Hlr & Hlt).
  unfold dict_get_default, dict_get.
  rewrite Hlb, Hld, Hll, Hlf, Hlr, Hlt.
  cbn [default from_option id py_truthy py_str].
  rewrite extract_density_upper.
  reflexivity.
Qed.

Lemma baseline_summary_witness :
  exists birads tf,
    extract_birads "BI-RADS 3, heterogeneously dense, left breast" = Ok birads
    /\ timeframe_from_birads birads = Ok tf
    /\ patient_summary (fun _ => "")
         (make_extraction (PInt 3) (PStr "C") (PStr "left") (PInt 180)) "en" =
         "### What this means" +:+ nl
         +:+ "• BI-RADS: **" +:+ py_str (fun _ => "") birads +:+ "**" +:+ nl
         +:+ "• Breast density: **"
         +:+ extract_density "BI-RADS 3, heterogeneously dense, left breast"
         +:+ "**" +:+ nl
         +:+ "• Side: **"
         +:+ extract_laterality "BI-RADS 3, heterogeneously dense, left breast"
         +:+ "**" +:+ nl
         +:+ "• Key findings: not specified in the report" +:+ nl +:+ nl
         +:+ "### Your next steps" +:+ nl
         +:+ "• Recommended action: follow your care team's advice "
         +:+ (if is_None tf then "as recommended"
              else "in about " +:+ py_str (fun _ => "") tf +:+ " days")
         +:+ "." +:+ nl
         +:+ (if str_in (extract_density "BI-RADS 3, heterogeneously dense, left breast")
                        ["C"; "D"]
              then dense_sentence else "")
         +:+ nl
         +:+ "### Questions to ask your clinician" +:+ nl
         +:+ "• Do I need any additional imaging?" +:+ nl
         +:+ "• When should I schedule it?" +:+ nl
         +:+ "• Is there anything else I should know?" +:+ nl +:+ nl
         +:+ "_This summary is educational and does not replace your clinician’s advice._".
Proof.
  apply (baseline_summary (fun _ => "") no_credentials
           "BI-RADS 3, heterogeneously dense, left breast"
           (make_extraction (PInt 3) (PStr "C") (PStr "left") (PInt 180)) "en").
  reflexivity.
Defined.

(** ** What the density and laterality patterns look for *)

Lemma ci_eqb_word x c : ci_eqb x c = true -> is_word c = true -> is_word x = true.
Proof.
  intros H1 H2.
  assert (H : forallb (fun x => forallb (fun c =>
      implb (ci_eqb x c) (implb (is_word c) (is_word x)))
      (map ascii_of_nat (List.seq 0 256)))
      (map ascii_of_nat (List.seq 0 256)) = true) by (vm_compute; reflexivity).
  rewrite forallb_forall in H. specialize (H x (in_all_chars x)).
  rewrite forallb_forall in H. specialize (H c (in_all_chars c)).
  by rewrite H1, H2 in H.
Qed.

Lemma found_true_iff r text :
  found (re_search r text) = true <->
  exists pre suf cap,
    list_ascii_of_string text = pre ++ suf /\ matches_at r pre suf cap.
Proof.
  split.
  - destruct (re_search r text) as [cap|] eqn:H; [|discriminate]. intros _.
    destruct (re_search_found _ _ _ H) as (pre & suf & Hs & Hm & _).
    by exists pre, suf, cap.
  - intros (pre & suf & cap & Hs & Hm). by eapply re_search_some.
Qed.

Lemma matches_at_lit w pre suf cap :
  matches_at (lit w) pre suf cap <->
  cap = None /\ exists mid post, suf = mid ++ post /\ ci_word w mid.
Proof.
  unfold matches_at. split.
  - intros (b' & s' & H).
    apply matches_lang in H as (l & L & -> & -> & ->); [|apply plain_lit].
    split; [done|]. exists l, s'. split; [done|]. by apply lang_lit.
  - intros (-> & mid & post & -> & Hw).
    exists (rev mid ++ rev pre), post.
    apply lang_matches; [apply plain_lit | by apply lang_lit].
Qed.

Lemma found_lit_or r w text :
  found (re_search (Alt (lit w) r) text) = true <->
  contains_ci w text \/ found (re_search r text) = true.
Proof.
  rewrite !found_true_iff. split.
  - intros (pre & suf & cap & Hs & b' & s' & Hm).
    inversion Hm; subst.
    + left. assert (Hl : matches_at (lit w) pre suf cap) by (by exists b', s').
      apply matches_at_lit in Hl as (_ & mid & post & -> & Hw).
      by exists pre, mid, post.
    + right. exists pre, suf, cap. split; [done|]. by exists b', s'.
  - intros [(pre & mid & post & Hs & Hw)|(pre & suf & cap & Hs & b' & s' & Hm)].
    + exists pre, (mid ++ post), None. split; [done|].
      assert (Hl : matches_at (lit w) pre (mid ++ post) None).
      { apply matches_at_lit. split; [done|]. by exists mid, post. }
      destruct Hl as (b' & s' & Hl). exists b', s'. by apply M_alt_l.
    + exists pre, suf, cap. split; [done|]. exists b', s'. by apply M_alt_r.
Qed.

Lemma found_lit w text :
  found (re_search (lit w) text) = true <-> contains_ci w text.
Proof.
  rewrite found_true_iff. split.
  - intros (pre & suf & cap & Hs & Hm).
    apply matches_at_lit in Hm as (_ & mid & post & -> & Hw).
    by exists pre, mid, post.
  - intros (pre & mid & post & Hs & Hw).
    exists pre, (mid ++ post), None. split; [done|].
    apply matches_at_lit. split; [done|]. by exists mid, post.
Qed.

Lemma matches_wordb_end bef s cap bef' s' cap' :
  matches (seq [WordB]) bef s cap bef' s' cap' <->
  bef' = bef /\ s' = s /\ cap' = cap
  /\ xorb (word_before bef) (word_after s) = true.
Proof.
  simpl. split.
  - inversion 1 as [| | |? ? ? ? ? b1 s1 c1 ? ? ? Hw He| | | | | | | |]; subst.
    inversion He; subst. by inversion Hw; subst.
  - intros (-> & -> & -> & Hx). eapply M_seq; [by apply M_wordb | constructor].
Qed.

(** The letter after "density": the second alternative of a density group. *)
Lemma found_density_letter c text :
  is_word c = true ->
  found (re_search (seq [lit "density"; Star is_space; Chr c; WordB]) text) = true
  <-> density_token c (list_ascii_of_string text).
Proof.
  intros Hc. rewrite found_true_iff.
  change (seq [lit "density"; Star is_space; Chr c; WordB])
    with (seq ([lit "density"; Star is_space; Chr c] ++ [WordB])).
  split.
  - intros (pre & suf & cap & Hs & b' & s' & Hm).
    apply matches_seq_app in Hm as (b1 & s1 & c1 & Hp & Hw).
    apply matches_wordb_end in Hw as (-> & -> & -> & Hx).
    apply matches_lang in Hp as (l & L & -> & -> & _); [|reflexivity].
    destruct L as (dens & l1 & -> & Ldens & ws & l2 & -> & Lws & xs & l3 & ->
                   & (x & -> & Hxc) & ->).
    apply lang_lit in Ldens.
    exists pre, dens, ws, x, s1. split; [by rewrite Hs, <- !app_assoc|].
    split; [done|]. split; [done|]. split; [done|].
    rewrite app_nil_r, !rev_app_distr in Hx. simpl in Hx.
    rewrite (ci_eqb_word _ _ Hxc Hc) in Hx. by destruct (word_after s1).
  - intros (pre & dens & ws & x & post & Hs & Hdens & Hws & Hxc & Hpost).
    exists pre, (dens ++ ws ++ x :: post), None. split; [done|].
    exists (rev (dens ++ ws ++ [x]) ++ rev pre), post.
    apply matches_seq_app.
    exists (rev (dens ++ ws ++ [x]) ++ rev pre), post, None. split.
    + replace (dens ++ ws ++ x :: post) with ((dens ++ ws ++ [x]) ++ post)
        by (by rewrite <- !app_assoc).
      apply lang_matches; [reflexivity|].
      exists dens, (ws ++ [x]). split; [done|]. split; [by apply lang_lit|].
      exists ws, [x]. split; [done|]. split; [done|].
      exists [x], []. split; [done|]. split; [by exists x | done].
    + apply matches_wordb_end. repeat split.
      rewrite !rev_app_distr. simpl.
      by rewrite (ci_eqb_word _ _ Hxc Hc), Hpost.
Qed.

Lemma found_density_group phrase c text :
  is_word c = true ->
  found (re_search (Alt (lit phrase)
                      (seq [lit "density"; Star is_space; Chr c; WordB])) text) = true
  <-> density_evidence phrase c text.
Proof.
  intros Hc. rewrite found_lit_or, (found_density_letter c text Hc). reflexivity.
Qed.

Lemma not_true_iff (b : bool) (P : Prop) : (b = true <-> P) -> (b = false <-> ~ P).
Proof. intros H. destruct b; split; intros; try done; intuition congruence. Qed.

(** X8. What [extract_density] returns: "D" exactly when the text has
    "extremely dense" or "density D"; otherwise "C" exactly when it has
    "heterogeneously dense" or "density C"; then "B" and "A" in the same
    way; and "unknown" exactly when it has none of the eight.  The phrases
    are read in any case; the letter may follow "density" after blanks and
    must not be followed by a word character. *)
Theorem extract_density_evidence :
  forall text,
    let D := density_evidence "extremely dense" "D" text in
    let C := density_evidence "heterogeneously dense" "C" text in
    let B := density_evidence "scattered fibroglandular" "B" text in
    let A := density_evidence "almost entirely fatty" "A" text in
    (extract_density text = "D" <-> D)
    /\ (extract_density text = "C" <-> ~ D /\ C)
    /\ (extract_density text = "B" <-> ~ D /\ ~ C /\ B)
    /\ (extract_density text = "A" <-> ~ D /\ ~ C /\ ~ B /\ A)
    /\ (extract_density text = "unknown" <-> ~ D /\ ~ C /\ ~ B /\ ~ A).
Proof.
  intros text D C B A.
  pose proof (found_density_group "extremely dense" "D" text eq_refl) as HD.
  pose proof (found_density_group "heterogeneously dense" "C" text eq_refl) as HC.
  pose proof (found_density_group "scattered fibroglandular" "B" text eq_refl) as HB.
  pose proof (found_density_group "almost entirely fatty" "A" text eq_refl) as HA.
  fold D in HD. fold C in HC. fold B in HB. fold A in HA.
  pose proof (not_true_iff _ _ HD) as HD'. pose proof (not_true_iff _ _ HC) as HC'.
  pose proof (not_true_iff _ _ HB) as HB'. pose proof (not_true_iff _ _ HA) as HA'.
  unfold extract_density, density_patterns, first_code.
  destruct (found (re_search (Alt (lit "extremely dense") _) text)) eqn:ED.
  { assert D by (by apply HD).
    repeat split; intros; try done; try tauto. }
  assert (~ D) by (by apply HD').
  destruct (found (re_search (Alt (lit "heterogeneously dense") _) text)) eqn:EC.
  { assert C by (by apply HC).
    repeat split; intros; try done; try tauto. }
  assert (~ C) by (by apply HC').
  destruct (found (re_search (Alt (lit "scattered fibroglandular") _) text)) eqn:EB.
  { assert B by (by apply HB).
    repeat split; intros; try done; try tauto. }
  assert (~ B) by (by apply HB').
  destruct (found (re_search (Alt (lit "almost entirely fatty") _) text)) eqn:EA.
  { assert A by (by apply HA).
    repeat split; intros; try done; try tauto. }
  assert (~ A) by (by apply HA').
  repeat split; intros; try done; try tauto.
Qed.

Lemma word_after_app mid post :
  word_after mid = true -> word_after (mid ++ post) = true.
Proof. by destruct mid. Qed.

Lemma found_whole_phrase w text :
  (forall mid, ci_word w mid ->
               word_after mid = true /\ word_before (rev mid) = true) ->
  found (re_search (seq [WordB; lit w; WordB]) text) = true
  <-> whole_phrase w text.
Proof.
  intros Hw. rewrite found_true_iff.
  change (seq [WordB; lit w; WordB]) with (Seq WordB (seq ([lit w] ++ [WordB]))).
  split.
  - intros (pre & suf & cap & Hs & b' & s' & Hm).
    inversion Hm as [| | |? ? ? ? ? b1 s1 c1 ? ? ? Hb Hrest| | | | | | | |]; subst.
    inversion Hb; subst.
    change (Seq (lit w) (Seq WordB Eps)) with (seq ([lit w] ++ [WordB])) in Hrest.
    apply matches_seq_app in Hrest as (b2 & s2 & c2 & Hp & Hend).
    apply matches_wordb_end in Hend as (-> & -> & -> & Hx2).
    apply matches_lang in Hp as (l & L & -> & -> & _); [|simpl; by rewrite plain_lit].
    destruct L as (mid & l2 & -> & Lmid & ->). apply lang_lit in Lmid.
    rewrite app_nil_r in *.
    destruct (Hw mid Lmid) as [Ha Hb'].
    exists pre, mid, s2. split; [done|]. split; [done|].
    match goal with H : xorb (word_before (rev pre)) _ = true |- _ =>
      rewrite (word_after_app _ _ Ha) in H end.
    assert (Hbm : word_before (rev mid ++ rev pre) = true).
    { destruct (rev mid); [discriminate | done]. }
    rewrite Hbm in Hx2.
    split; [by destruct (word_before (rev pre)) | by destruct (word_after s2)].
  - intros (pre & mid & post & Hs & Hmid & Hpre & Hpost).
    destruct (Hw mid Hmid) as [Ha Hb'].
    exists pre, (mid ++ post), None. split; [done|].
    exists (rev mid ++ rev pre), post.
    eapply M_seq.
    + apply M_wordb. by rewrite Hpre, (word_after_app _ _ Ha).
    + change (Seq (lit w) (Seq WordB Eps)) with (seq ([lit w] ++ [WordB])).
      apply matches_seq_app. exists (rev mid ++ rev pre), post, None. split.
      * replace (mid ++ post) with ((mid ++ []) ++ post) by (by rewrite app_nil_r).
        replace (rev mid) with (rev (mid ++ [])) by (by rewrite app_nil_r).
        apply lang_matches; [simpl; by rewrite plain_lit|].
        exists mid, []. split; [done|]. split; [by apply lang_lit | done].
      * apply matches_wordb_end. repeat split.
        assert (Hbm : word_before (rev mid ++ rev pre) = true).
        { destruct (rev mid); [discriminate | done]. }
        by rewrite Hbm, Hpost.
Qed.

Lemma left_breast_edges mid :
  ci_word "left breast" mid ->
  word_after mid = true /\ word_before (rev mid) = true.
Proof.
  unfold ci_word. simpl. intros H.
  repeat match goal with
    | H : Forall2 _ _ (_ :: _) |- _ => inversion H; subst; clear H
    | H : Forall2 _ _ [] |- _ => inversion H; subst; clear H
    end.
  simpl. split; eapply ci_eqb_word; try eassumption; reflexivity.
Qed.

Lemma right_breast_edges mid :
  ci_word "right breast" mid ->
  word_after mid = true /\ word_before (rev mid) = true.
Proof.
  unfold ci_word. simpl. intros H.
  repeat match goal with
    | H : Forall2 _ _ (_ :: _) |- _ => inversion H; subst; clear H
    | H : Forall2 _ _ [] |- _ => inversion H; subst; clear H
    end.
  simpl. split; eapply ci_eqb_word; try eassumption; reflexivity.
Qed.

(** X9. What [extract_laterality] returns: "bilateral" exactly when the
    text has "bilateral" or "both breasts"; otherwise "left" exactly when it
    has "left breast" as whole words; otherwise "right" exactly when it has
    "right breast" as whole words; and "unknown" exactly when it has none.
    So a text that has "bilateral" or "both breasts" is never tagged with
    one side, and a text that has "left breast" and "right breast" without
    them is tagged "left". *)
Theorem extract_laterality_evidence :
  forall text,
    let Both := contains_ci "bilateral" text \/ contains_ci "both breasts" text in
    let L := whole_phrase "left breast" text in
    let R := whole_phrase "right breast" text in
    (extract_laterality text = "bilateral" <-> Both)
    /\ (extract_laterality text = "left" <-> ~ Both /\ L)
    /\ (extract_laterality text = "right" <-> ~ Both /\ ~ L /\ R)
    /\ (extract_laterality text = "unknown" <-> ~ Both /\ ~ L /\ ~ R).
Proof.
  intros text Both L R.
  assert (HB : found (re_search (Alt (lit "bilateral") (lit "both breasts")) text) = true
               <-> Both).
  { rewrite found_lit_or, found_lit. reflexivity. }
  pose proof (found_whole_phrase "left breast" text left_breast_edges) as HL.
  pose proof (found_whole_phrase "right breast" text right_breast_edges) as HR.
  fold L in HL. fold R in HR.
  pose proof (not_true_iff _ _ HB) as HB'. pose proof (not_true_iff _ _ HL) as HL'.
  pose proof (not_true_iff _ _ HR) as HR'.
  unfold extract_laterality.
  destruct (found (re_search (Alt (lit "bilateral") (lit "both breasts")) text)) eqn:EB.
  { assert Both by (by apply HB). repeat split; intros; try done; try tauto. }
  assert (~ Both) by (by apply HB').
  destruct (found (re_search (seq [WordB; lit "left breast"; WordB]) text)) eqn:EL.
  { assert L by (by apply HL). repeat split; intros; try done; try tauto. }
  assert (~ L) by (by apply HL').
  destruct (found (re_search (seq [WordB; lit "right breast"; WordB]) text)) eqn:ER.
  { assert R by (by apply HR). repeat split; intros; try done; try tauto. }
  assert (~ R) by (by apply HR').
  repeat split; intros; try done; try tauto.
Qed.

(** ** The input stage *)

Lemma lstrip_nil_iff l : lstrip l = [] <-> Forall (fun c => is_space c = true) l.
Proof.
  induction l as [|c l IH]; simpl.
  - split; [constructor | done].
  - destruct (is_space c) eqn:Hc.
    + rewrite IH. split; [by constructor | by inversion 1].
    + split; [discriminate | inversion 1; congruence].
Qed.

Lemma lstrip_head l :
  lstrip l = [] \/ exists c m, lstrip l = c :: m /\ is_space c = false.
Proof.
  induction l as [|c l IH]; simpl; [by left|].
  destruct (is_space c) eqn:Hc; [exact IH|]. right. by exists c, l.
Qed.

Lemma lstrip_incl l c : In c (lstrip l) -> In c l.
Proof.
  induction l as [|x l IH]; simpl; [done|].
  destruct (is_space x); [right; by apply IH | done].
Qed.

Lemma lstrip_snoc l c :
  is_space c = false -> exists m, lstrip (l ++ [c]) = m ++ [c].
Proof.
  intros Hc. induction l as [|x l IH]; simpl.
  - rewrite Hc. by exists [].
  - destruct (is_space x); [exact IH|]. by exists (x :: l).
Qed.

(** The stripped string is empty, or it starts with a character that is
    not white space. *)
Lemma strip_head l :
  rstrip (lstrip l) = []
  \/ exists c m, rstrip (lstrip l) = c :: m /\ is_space c = false.
Proof.
  destruct (lstrip_head l) as [->|(c & m & -> & Hc)]; [by left|].
  right. unfold rstrip. simpl.
  destruct (lstrip_snoc (rev m) c Hc) as (m' & ->).
  rewrite rev_app_distr. simpl. by exists c, (rev m').
Qed.

Lemma strip_nil_iff l :
  rstrip (lstrip l) = [] <-> Forall (fun c => is_space c = true) l.
Proof.
  split.
  - intros H. destruct (lstrip_head l) as [E|(c & m & E & Hc)].
    + by apply lstrip_nil_iff.
    + exfalso. rewrite E in H. unfold rstrip in H. simpl in H.
      destruct (lstrip_snoc (rev m) c Hc) as (m' & Hm'). rewrite Hm' in H.
      rewrite rev_app_distr in H. discriminate.
  - intros H. apply lstrip_nil_iff in H. by rewrite H.
Qed.

Lemma strip_incl l c : In c (rstrip (lstrip l)) -> In c l.
Proof.
  unfold rstrip. rewrite <- in_rev. intros H.
  apply lstrip_incl in H. rewrite <- in_rev in H. by apply lstrip_incl.
Qed.

Lemma list_of_string_of l : list_ascii_of_string (string_of_list_ascii l) = l.
Proof. apply list_ascii_of_string_of_list_ascii. Qed.

Lemma string_of_nil_iff l : string_of_list_ascii l = "" <-> l = [].
Proof. destruct l; simpl; split; done. Qed.

Lemma py_strip_empty_iff s : str_nonempty (py_strip s) = false <-> all_blank s.
Proof.
  unfold py_strip, all_blank. rewrite <- strip_nil_iff, <- string_of_nil_iff.
  by destruct (string_of_list_ascii _).
Qed.

Lemma py_strip_nonempty_iff s : str_nonempty (py_strip s) = true <-> ~ all_blank s.
Proof.
  rewrite <- py_strip_empty_iff. by destruct (str_nonempty (py_strip s)).
Qed.

(** A stripped string that is not empty is not blank. *)
Lemma py_strip_not_blank s :
  str_nonempty (py_strip s) = true -> ~ all_blank (py_strip s).
Proof.
  unfold py_strip, all_blank. rewrite list_of_string_of.
  destruct (strip_head (list_ascii_of_string s)) as [->|(c & m & -> & Hc)];
    [discriminate|].
  intros _ H. inversion H; congruence.
Qed.

Lemma all_blank_has_no_other s :
  ~ all_blank s -> exists c, In c (list_ascii_of_string s) /\ is_space c = false.
Proof.
  unfold all_blank. induction (list_ascii_of_string s) as [|x l IH]; intros H.
  - destruct H. constructor.
  - destruct (is_space x) eqn:Hx.
    + destruct IH as (c & Hin & Hc).
      { intros Hl. apply H. by constructor. }
      exists c. split; [by right | done].
    + exists x. split; [by left | done].
Qed.

(** X10. The text that goes to the extraction is never blank: it has a
    character that is not white space.  Without a file the run stops with
    the first message exactly when the pasted text is blank, and otherwise
    the extraction gets the stripped text. *)
Theorem start_text_not_blank :
  (forall file text_input raw_text,
      start file text_input = Run raw_text ->
      exists c, In c (list_ascii_of_string raw_text) /\ is_space c = false)
  /\ (forall text_input, all_blank text_input -> start None text_input = StopNoInput)
  /\ (forall text_input, ~ all_blank text_input ->
        start None text_input = Run (py_strip text_input)).
Proof.
  split; [|split].
  - intros file text_input raw_text. unfold start.
    destruct (_ && _); [discriminate|].
    match goal with |- (if negb (str_nonempty (py_strip ?t)) then _ else _) = _ -> _ =>
      destruct (str_nonempty (py_strip t)) eqn:Hne; simpl; [|discriminate];
      inversion 1; subst
    end.
    apply all_blank_has_no_other. by apply py_strip_nonempty_iff.
  - intros text_input Hb. unfold start.
    apply py_strip_empty_iff in Hb. by rewrite Hb.
  - intros text_input Hb. unfold start.
    apply py_strip_nonempty_iff in Hb. rewrite Hb. simpl.
    pose proof (py_strip_not_blank _ Hb) as Hnb.
    apply py_strip_nonempty_iff in Hnb. by rewrite Hnb.
Qed.

Lemma start_text_not_blank_witness :
  start None "  BI-RADS 2  " = Run (py_strip "  BI-RADS 2  ").
Proof.
  apply (proj2 (proj2 start_text_not_blank)).
  apply py_strip_nonempty_iff. reflexivity.
Defined.

Lemma page_texts_textless pages :
  Forall textless pages ->
  page_texts pages = Some (repeat "" (length pages)).
Proof.
  induction 1 as [|p pages [-> | ->] _ IH]; simpl; [done | |]; by rewrite IH.
Qed.

Lemma join_empty_parts n :
  all_blank (str_join nl (repeat "" n))
  /\ (2 <= n -> str_nonempty (str_join nl (repeat "" n)) = true)%nat.
Proof.
  induction n as [|n [IH1 IH2]]; [split; [constructor | lia]|].
  destruct n as [|n]; [split; [constructor | lia]|].
  change (str_join nl (repeat "" (S (S n))))
    with (String (ascii_of_N 10) (str_join nl (repeat "" (S n)))).
  split; [|done].
  unfold all_blank. simpl. constructor; [reflexivity | exact IH1].
Qed.

(** X11. A PDF of two or more pages that all have no text stops the run
    with the second message whatever was pasted: its text is new lines
    only, which is not empty, so the pasted text is not used.  A PDF that
    cannot be read, or with a page that raises, leaves the pasted text in
    use. *)
Theorem start_pdf_without_text :
  (forall name pages text_input,
      str_nonempty name = true -> (2 <= length pages)%nat ->
      Forall textless pages ->
      start (Some {| upload_name := name; upload_pdf := PdfPages pages |}) text_input
      = StopNoText)
  /\ (forall name pdf text_input,
        pdf_to_text pdf = "" -> ~ all_blank text_input ->
        start (Some {| upload_name := name; upload_pdf := pdf |}) text_input
        = Run (py_strip text_input))
  /\ pdf_to_text PdfUnreadable = ""
  /\ (forall pages, In PageRaises pages -> pdf_to_text (PdfPages pages) = "").
Proof.
  split; [|split; [|split]].
  - intros name pages text_input Hname Hlen Hpages. unfold start. simpl.
    rewrite Hname. unfold pdf_to_text. rewrite (page_texts_textless _ Hpages).
    destruct (join_empty_parts (length pages)) as [Hb Hne].
    unfold py_or_str. rewrite (Hne Hlen).
    apply py_strip_empty_iff in Hb. by rewrite Hb.
  - intros name pdf text_input Hpdf Hb. unfold start. simpl. rewrite Hpdf.
    unfold py_or_str. simpl.
    apply py_strip_nonempty_iff in Hb.
    pose proof (py_strip_not_blank _ Hb) as Hnb.
    apply py_strip_nonempty_iff in Hnb.
    destruct (str_nonempty name); by rewrite Hnb.
  - reflexivity.
  - intros pages Hin. unfold pdf_to_text.
    assert (H : page_texts pages = None).
    { induction pages as [|p pages IH]; [done|].
      destruct Hin as [->|Hin]; [done|].
      simpl. destruct p; [done | |]; by rewrite (IH Hin). }
    by rewrite H.
Qed.

Lemma start_pdf_without_text_witness :
  start (Some {| upload_name := "scan.pdf";
                 upload_pdf := PdfPages [PageStr ""; PageNone] |})
        "BI-RADS 2"
  = StopNoText.
Proof.
  apply (proj1 start_pdf_without_text).
  - reflexivity.
  - simpl. lia.
  - constructor; [by right|]. constructor; [by left|]. constructor.
Defined.

(** ** The calendar link *)

Lemma str_forall_app p s t :
  str_forall p (s +:+ t) = str_forall p s && str_forall p t.
Proof.
  induction s as [|c s IH]; simpl; [done|]. by rewrite IH, andb_assoc.
Qed.

Lemma str_count_app c s t :
  str_count c (s +:+ t) = (str_count c s + str_count c t)%nat.
Proof.
  induction s as [|x s IH]; simpl; [done|]. rewrite IH. lia.
Qed.

Lemma blanks_to_plus_app s t :
  blanks_to_plus (s +:+ t) = blanks_to_plus s +:+ blanks_to_plus t.
Proof. induction s as [|x s IH]; simpl; [done|]. by rewrite IH. Qed.

Lemma quote_blank_char c :
  blanks_to_plus (if always_safe c || is_blank_char c
                  then String c EmptyString else percent_hex c)
  = quote_plus_char c.
Proof.
  revert c.
  assert (H : forall c, (if string_dec
      (blanks_to_plus (if always_safe c || is_blank_char c
                       then String c EmptyString else percent_hex c))
      (quote_plus_char c) then true else false) = true)
    by (apply ascii_forall; vm_compute; reflexivity).
  intros c. specialize (H c). by destruct (string_dec _ _).
Qed.

Lemma quote_no_blank_char c :
  is_blank_char c = false ->
  (if always_safe c || false then String c EmptyString else percent_hex c)
  = quote_plus_char c.
Proof.
  intros Hc. unfold quote_plus_char. rewrite Hc, orb_false_r. done.
Qed.

(** [quote_plus] writes the string character by character. *)
Lemma quote_plus_by_char s : quote_plus s = quote_plus_chars s.
Proof.
  unfold quote_plus. destruct (has_blank s) eqn:Hb.
  - clear Hb. induction s as [|c s IH]; simpl; [done|].
    by rewrite blanks_to_plus_app, quote_blank_char, IH.
  - induction s as [|c s IH]; simpl; [done|].
    simpl in Hb. apply orb_false_iff in Hb as [Hc Hs].
    by rewrite (quote_no_blank_char c Hc), IH.
Qed.

Lemma quote_plus_char_value c : str_forall value_char (quote_plus_char c) = true.
Proof. by_all_chars c. Qed.

Lemma quote_plus_value s : str_forall value_char (quote_plus s) = true.
Proof.
  rewrite quote_plus_by_char. induction s as [|c s IH]; simpl; [done|].
  by rewrite str_forall_app, quote_plus_char_value, IH.
Qed.

Lemma str_forall_impl (p q : ascii -> bool) s :
  (forall c, p c = true -> q c = true) ->
  str_forall p s = true -> str_forall q s = true.
Proof.
  intros Hpq. induction s as [|c s IH]; simpl; [done|].
  intros H. apply andb_prop in H as [Hc Hs]. by rewrite (Hpq c Hc), IH.
Qed.

Lemma value_char_query c : value_char c = true -> query_char c = true.
Proof.
  unfold value_char, query_char. intros H.
  apply orb_prop in H as [H|H]; [apply orb_prop in H as [H|H]|]; rewrite H;
    by rewrite ?orb_true_r.
Qed.

Lemma value_char_count (x : ascii) s :
  value_char x = false -> str_forall value_char s = true -> str_count x s = 0%nat.
Proof.
  intros Hx. induction s as [|c s IH]; simpl; [done|].
  intros H. apply andb_prop in H as [Hc Hs]. rewrite (IH Hs).
  destruct (ascii_dec c x) as [->|]; [congruence | done].
Qed.

(** X12. The link is the fixed address followed by the four parameters
    in their order, and its query needs no further escaping: whatever the
    title, the details and the formatted date are, it only has letters,
    digits, [_.-~%+] and the three [&] and four [=] that separate the
    parameters, so no text can add or split a parameter. *)
Theorem calendar_link_query :
  forall (strftime_Ymd : date -> string) title start_date details,
    let q :=
      "action=TEMPLATE&text=" +:+ quote_plus title
      +:+ "&dates="
      +:+ quote_plus (strftime_Ymd start_date +:+ "/" +:+ strftime_Ymd start_date)
      +:+ "&details=" +:+ quote_plus details in
    calendar_link strftime_Ymd title start_date details = calendar_base +:+ q
    /\ str_forall query_char q = true
    /\ str_count "&" q = 3%nat
    /\ str_count "=" q = 4%nat.
Proof.
  intros strftime_Ymd title start_date details q.
  assert (Hq : forall s, str_forall query_char (quote_plus s) = true).
  { intros s. eapply str_forall_impl; [apply value_char_query | apply quote_plus_value]. }
  assert (Hamp : forall s, str_count "&" (quote_plus s) = 0%nat).
  { intros s. apply value_char_count; [reflexivity | apply quote_plus_value]. }
  assert (Heq : forall s, str_count "=" (quote_plus s) = 0%nat).
  { intros s. apply value_char_count; [reflexivity | apply quote_plus_value]. }
  split; [reflexivity|]. unfold q.
  split; [|split].
  - rewrite !str_forall_app, !Hq. reflexivity.
  - rewrite !str_count_app, !Hamp. reflexivity.
  - rewrite !str_count_app, !Heq. reflexivity.
Qed.

Lemma unquote_plus_char c r :
  unquote_plus (quote_plus_char c +:+ r) = String c (unquote_plus r).
Proof.
  assert (H : forall c,
    (if string_dec (quote_plus_char c) (String c EmptyString) then
       negb (if ascii_dec c "+" then true else false)
       && negb (if ascii_dec c "%" then true else false)
     else if string_dec (quote_plus_char c) "+" then
       (if ascii_dec c " " then true else false)
     else
       match quote_plus_char c with
       | String p (String x (String y EmptyString)) =>
           (if ascii_dec p "%" then true else false)
           && (if ascii_dec (ascii_of_N (16 * unhex x + unhex y)) c then true else false)
       | _ => false
       end) = true)
    by (apply ascii_forall; vm_compute; reflexivity).
  specialize (H c).
  destruct (string_dec (quote_plus_char c) (String c EmptyString)) as [E|E].
  - rewrite E. apply andb_prop in H as [H1 H2]. simpl.
    destruct (ascii_dec c "+"); [discriminate|].
    destruct (ascii_dec c "%"); [discriminate|]. done.
  - destruct (string_dec (quote_plus_char c) "+") as [E2|E2].
    + rewrite E2. simpl. by destruct (ascii_dec c " ") as [->|].
    + destruct (quote_plus_char c) as [|p [|x [|y [|]]]]; try discriminate.
      apply andb_prop in H as [H1 H2].
      destruct (ascii_dec p "%") as [->|]; [|discriminate].
      destruct (ascii_dec _ c) as [Hc|]; [|discriminate].
      simpl. by rewrite Hc.
Qed.

Lemma unquote_quote_plus s : unquote_plus (quote_plus s) = s.
Proof.
  rewrite quote_plus_by_char. induction s as [|c s IH]; [done|].
  cbn [quote_plus_chars]. by rewrite unquote_plus_char, IH.
Qed.

(** X13. [quote_plus] loses nothing: two strings with the same encoding
    are the same string, since reading [+] as a blank and [%XY] as a byte
    gives the string back. *)
Theorem quote_plus_injective :
  (forall s, unquote_plus (quote_plus s) = s)
  /\ (forall s1 s2, quote_plus s1 = quote_plus s2 -> s1 = s2).
Proof.
  split; [apply unquote_quote_plus|].
  intros s1 s2 H. rewrite <- (unquote_quote_plus s1), <- (unquote_quote_plus s2).
  by rewrite H.
Qed.

Lemma quote_plus_injective_witness :
  "Mammogram follow-up" = "Mammogram follow-up".
Proof.
  apply (proj2 quote_plus_injective). reflexivity.
Defined.

(** ** Dates and their ordinals *)

Lemma is_leap_false y :
  is_leap y = false <-> ~ (y mod 4 = 0 /\ (y mod 100 <> 0 \/ y mod 400 = 0)).
Proof.
  rewrite <- is_leap_true. by destruct (is_leap y).
Qed.

Lemma days_before_year_succ y :
  1 <= y ->
  days_before_year (y + 1) = days_before_year y + (if is_leap y then 366 else 365).
Proof.
  intros Hy. unfold days_before_year. cbv zeta.
  destruct (is_leap y) eqn:Hl.
  - apply is_leap_true in Hl. Z.div_mod_to_equations. lia.
  - apply is_leap_false in Hl. Z.div_mod_to_equations. lia.
Qed.

Lemma days_before_year_mono a b :
  1 <= a <= b -> days_before_year a <= days_before_year b.
Proof.
  intros H. unfold days_before_year. cbv zeta. Z.div_mod_to_equations. lia.
Qed.

Lemma month_cases m :
  1 <= m <= 12 ->
  m = 1 \/ m = 2 \/ m = 3 \/ m = 4 \/ m = 5 \/ m = 6 \/ m = 7 \/ m = 8 \/ m = 9
  \/ m = 10 \/ m = 11 \/ m = 12.
Proof. lia. Qed.

(** The day of the year of a valid date. *)
Lemma day_of_year_range y m d :
  1 <= m <= 12 -> 1 <= d <= days_in_month y m ->
  1 <= days_before_month y m + d <= (if is_leap y then 366 else 365).
Proof.
  intros Hm Hd. unfold days_before_month, days_in_month in *.
  destruct (month_cases m Hm) as [->|[->|[->|[->|[->|[->|[->|[->|[->|[->|[->| ->]]]]]]]]]]];
    destruct (is_leap y); cbn in *; lia.
Qed.

Lemma day_of_year_injective y m1 d1 m2 d2 :
  1 <= m1 <= 12 -> 1 <= d1 <= days_in_month y m1 ->
  1 <= m2 <= 12 -> 1 <= d2 <= days_in_month y m2 ->
  days_before_month y m1 + d1 = days_before_month y m2 + d2 ->
  m1 = m2 /\ d1 = d2.
Proof.
  intros Hm1 Hd1 Hm2 Hd2. unfold days_before_month, days_in_month in *.
  destruct (month_cases m1 Hm1) as [->|[->|[->|[->|[->|[->|[->|[->|[->|[->|[->| ->]]]]]]]]]]];
    destruct (month_cases m2 Hm2) as [->|[->|[->|[->|[->|[->|[->|[->|[->|[->|[->| ->]]]]]]]]]]];
    destruct (is_leap y); cbn in *; lia.
Qed.

Lemma toordinal_year_bounds t :
  valid_date t ->
  days_before_year (year t) < toordinal t <= days_before_year (year t + 1).
Proof.
  destruct t as [y m d]. unfold valid_date, toordinal, ymd2ord. cbn [year month day].
  intros (Hy & Hm & Hd).
  pose proof (day_of_year_range y m d Hm Hd) as Hr.
  rewrite days_before_year_succ by lia. lia.
Qed.

Lemma toordinal_injective t1 t2 :
  valid_date t1 -> valid_date t2 -> toordinal t1 = toordinal t2 -> t1 = t2.
Proof.
  intros H1 H2 Heq.
  pose proof (toordinal_year_bounds _ H1) as B1.
  pose proof (toordinal_year_bounds _ H2) as B2.
  destruct t1 as [y1 m1 d1], t2 as [y2 m2 d2].
  destruct H1 as (Hy1 & Hm1 & Hd1), H2 as (Hy2 & Hm2 & Hd2).
  cbn [year month day] in *.
  assert (Hy : y1 = y2).
  { destruct (Z.lt_trichotomy y1 y2) as [Hl|[He|Hl]]; [|done|].
    - pose proof (days_before_year_mono (y1 + 1) y2 ltac:(lia)). lia.
    - pose proof (days_before_year_mono (y2 + 1) y1 ltac:(lia)). lia. }
  subst y2. unfold toordinal, ymd2ord in Heq. cbn [year month day] in Heq.
  destruct (day_of_year_injective y1 m1 d1 m2 d2 Hm1 Hd1 Hm2 Hd2) as [-> ->]; [lia|].
  reflexivity.
Qed.

Lemma toordinal_max t : valid_date t -> toordinal t <= MAXORDINAL.
Proof.
  intros Hv. pose proof (toordinal_year_bounds _ Hv) as B.
  destruct Hv as (Hy & _).
  pose proof (days_before_year_mono (year t + 1) 10000 ltac:(lia)) as Hm.
  change (days_before_year 10000) with 3652059 in Hm. unfold MAXORDINAL. lia.
Qed.

Lemma toordinal_fromordinal t : valid_date t -> fromordinal (toordinal t) = t.
Proof.
  intros Hv.
  pose proof (toordinal_positive _ Hv) as Hpos.
  pose proof (toordinal_max _ Hv) as Hmax.
  destruct (fromordinal_toordinal (toordinal t)) as [Hord Hv']; [lia|].
  by apply toordinal_injective.
Qed.

(** X14. Dates and ordinals are in one-to-one correspondence, so the
    planner's date is today itself exactly when the timeframe is 0 (as for
    BI-RADS 6): for a timeframe of at least 0 that stays in the range of the
    library, the planned date is today if and only if the timeframe is 0. *)
Theorem follow_up_today :
  (forall t, valid_date t -> fromordinal (toordinal t) = t)
  /\ (forall e today days,
        dict_get e K_timeframe = PInt days ->
        0 <= days -> valid_date today -> toordinal today + days <= MAXORDINAL ->
        (follow_up e today = Ok (Some today) <-> days = 0)).
Proof.
  split; [apply toordinal_fromordinal|].
  intros e today days H Hd Hv Hmax.
  rewrite (follow_up_in_range _ _ _ H Hd Hv Hmax).
  pose proof (toordinal_positive _ Hv) as Hpos.
  destruct (fromordinal_toordinal (toordinal today + days)) as [Hord Hv']; [lia|].
  split.
  - inversion 1 as [E]. rewrite E in Hord. lia.
  - intros ->. by rewrite Z.add_0_r, toordinal_fromordinal.
Qed.

Lemma follow_up_today_witness :
  follow_up (make_extraction (PInt 6) (PStr "B") (PStr "left") (PInt 0))
            (mkdate 2024 2 29)
  = Ok (Some (mkdate 2024 2 29)).
Proof.
  apply (proj2 follow_up_today _ _ 0).
  - reflexivity.
  - lia.
  - unfold valid_date. cbn [year month day]. vm_compute. intuition discriminate.
  - vm_compute. discriminate.
  - reflexivity.
Defined.

(** ** Density and laterality are always set *)

Lemma extract_laterality_values text :
  extract_laterality text = "bilateral" \/ extract_laterality text = "left"
  \/ extract_laterality text = "right" \/ extract_laterality text = "unknown".
Proof.
  unfold extract_laterality.
  destruct (found _); [by left|].
  destruct (found _); [by right; left|].
  destruct (found _); [by right; right; left | by repeat right].
Qed.

(** X15. In every record of the pipeline, with or without enrichment, the
    density and the laterality are neither [None] nor [""]; without
    enrichment the density is one of D, C, B, A, unknown and the laterality
    one of bilateral, left, right, unknown. *)
Theorem pipeline_density_laterality_set :
  (forall w use_llm raw_text e,
      pipeline w use_llm raw_text = Ok e ->
      none_or_empty (dict_get e K_density) = false
      /\ none_or_empty (dict_get e K_laterality) = false)
  /\ (forall w raw_text e,
        pipeline w false raw_text = Ok e ->
        e !! K_density = Some (PStr (extract_density raw_text))
        /\ e !! K_laterality = Some (PStr (extract_laterality raw_text))
        /\ In (extract_density raw_text) ["D"; "C"; "B"; "A"; "unknown"]
        /\ In (extract_laterality raw_text) ["bilateral"; "left"; "right"; "unknown"]).
Proof.
  assert (Hd : forall t, none_or_empty (PStr (extract_density t)) = false).
  { intros t.
    destruct (extract_density_values t) as [E|[E|[E|[E|E]]]]; by rewrite E. }
  assert (Hl : forall t, none_or_empty (PStr (extract_laterality t)) = false).
  { intros t.
    destruct (extract_laterality_values t) as [E|[E|[E|E]]]; by rewrite E. }
  split.
  - intros w use_llm raw_text e. unfold pipeline.
    destruct (base_extraction_ok raw_text) as (b & tf & -> & _). simpl.
    set (base := make_extraction b (PStr (extract_density raw_text))
                   (PStr (extract_laterality raw_text)) tf).
    assert (Hbd : dict_get base K_density = PStr (extract_density raw_text)).
    { unfold dict_get, base.
      by rewrite (proj1 (proj2 (make_extraction_lookup _ _ _ _))). }
    assert (Hbl : dict_get base K_laterality = PStr (extract_laterality raw_text)).
    { unfold dict_get, base.
      by rewrite (proj1 (proj2 (proj2 (make_extraction_lookup _ _ _ _)))). }
    destruct use_llm.
    + destruct (llm_extract w raw_text) as [llm|]; simpl; [|discriminate].
      intros Hm. split.
      * destruct (none_or_empty (dict_get e K_density)) eqn:E; [|done].
        rewrite (merge_blank_from_base _ _ _ _ Hm E), Hbd, Hd in E. discriminate.
      * destruct (none_or_empty (dict_get e K_laterality)) eqn:E; [|done].
        rewrite (merge_blank_from_base _ _ _ _ Hm E), Hbl, Hl in E. discriminate.
    + inversion 1; subst e. by rewrite Hbd, Hbl, Hd, Hl.
  - intros w raw_text e. unfold pipeline.
    destruct (base_extraction_ok raw_text) as (b & tf & -> & _). simpl.
    inversion 1; subst e.
    split; [apply make_extraction_lookup|]. split; [apply make_extraction_lookup|].
    split.
    + destruct (extract_density_values raw_text) as [E|[E|[E|[E|E]]]]; rewrite E;
        simpl; tauto.
    + destruct (extract_laterality_values raw_text) as [E|[E|[E|E]]]; rewrite E;
        simpl; tauto.
Qed.

Lemma pipeline_density_laterality_set_witness :
  none_or_empty (dict_get (make_extraction (PInt 4) (PStr "unknown") (PStr "unknown")
                             (PInt 7)) K_density) = false
  /\ none_or_empty (dict_get (make_extraction (PInt 4) (PStr "unknown") (PStr "unknown")
                                (PInt 7)) K_laterality) = false.
Proof.
  apply (proj1 pipeline_density_laterality_set no_credentials false "BI-RADS 4").
  reflexivity.
Defined.
